(** * waste_classifier.py: a shallow embedding and its properties

    The script loads a Keras model, preprocesses one image, runs one forward
    pass and prints a JSON record.  Everything the script reaches through a
    library (the file system, [load_model], [load_img], [model.predict],
    [json.dumps]) is a parameter of the development; the code of the script
    itself ([preprocess_image], [classify], [main]) is embedded as Rocq
    functions in a small trace-and-exception monad.

    Numbers are IEEE 754 values in the representation of the standard
    library's [SpecFloat]: a numpy [float32] is a binary32 value
    ([prec = 24], [emax = 128]), a Python [float] a binary64 value
    ([prec = 53], [emax = 1024]). *)

From Stdlib Require Import ZArith List String Bool Lia Zpower.
From Stdlib Require Import Strings.Byte DecimalString.
From Stdlib Require Import Floats.SpecFloat.
Import ListNotations.

Local Open Scope Z_scope.

(* ===================================================================== *)
(** * IEEE 754 values *)
(* ===================================================================== *)

Module Ieee.

(** [x <= y], [x < y] and [x == y] as IEEE comparisons: all three are false
    as soon as one side is a NaN. *)
Definition leb := SFleb.
Definition ltb := SFltb.
Definition eqb := SFeqb.

Definition isnan (x : spec_float) : bool :=
  match x with S754_nan => true | _ => false end.

(** ** binary32: the element type of the arrays *)

Definition is_binary32 (x : spec_float) : bool := valid_binary 24 128 x.

Record float32 : Type := Float32 {
  f32_val : spec_float;
  f32_valid : is_binary32 f32_val = true
}.

Definition f32_nan : float32 := Float32 S754_nan eq_refl.

(** Packs the result of a binary32 operation.  IEEE operations always land
    in the format, so the second branch is never taken on the values the
    script computes (lemma [normalized_pixel] below checks it for
    every pixel value). *)
Definition mk32 (x : spec_float) : float32 :=
  (if is_binary32 x as b return (is_binary32 x = b -> float32)
   then fun H => Float32 x H
   else fun _ => f32_nan) eq_refl.

Definition f32_of_Z (n : Z) : float32 := mk32 (binary_normalize 24 128 n 0 false).

Definition f32_div (x y : float32) : float32 :=
  mk32 (SFdiv 24 128 (f32_val x) (f32_val y)).

Definition f32_leb (x y : float32) : bool := leb (f32_val x) (f32_val y).
Definition f32_ltb (x y : float32) : bool := ltb (f32_val x) (f32_val y).
Definition f32_eqb (x y : float32) : bool := eqb (f32_val x) (f32_val y).
Definition f32_isnan (x : float32) : bool := isnan (f32_val x).

Definition f32_zero : float32 := f32_of_Z 0.
Definition f32_one : float32 := f32_of_Z 1.

(** [m * 2^e] rounded to binary32, for writing constants such as [0.5]. *)
Definition f32_scaled (m e : Z) : float32 := mk32 (binary_normalize 24 128 m e false).

(** ** binary64: Python's [float] *)

Definition is_binary64 (x : spec_float) : bool := valid_binary 53 1024 x.

Definition zero64 : spec_float := S754_zero false.
Definition one64 : spec_float := binary_normalize 53 1024 1 0 false.

(** [float(x)] for a numpy [float32] scalar [x]: the value is rounded into
    binary64, which holds every binary32 value exactly. *)
Definition to_float (x : float32) : spec_float :=
  match f32_val x with
  | S754_finite s m e => binary_normalize 53 1024 (cond_Zopp s (Zpos m)) e s
  | v => v
  end.

End Ieee.

Import Ieee.

(* ===================================================================== *)
(** * Python values, exceptions and effects *)
(* ===================================================================== *)

Module Py.

(** A raised exception with its [str()].  [except Exception] catches the
    instances of [Exception] ([Exc]); what derives from [BaseException]
    only ([KeyboardInterrupt], [SystemExit], [GeneratorExit]) is [BaseExc]. *)
Inductive exn : Type :=
  | Exc (msg : string)
  | BaseExc (msg : string).

Inductive outcome (A : Type) : Type :=
  | Return (a : A)
  | Raise (e : exn).
Arguments Return {A} a.
Arguments Raise {A} e.

(** The calls that leave the script, in the order they are made. *)
Inductive event : Type :=
  | EvExists (path : string)
  | EvLoadModel (path : string)
  | EvLoadImg (path : string)
  | EvPredict
  | EvPrint (line : string).

(** A computation: the events it performed and how it ended. *)
Definition M (A : Type) : Type := (list event * outcome A)%type.

Definition ret {A} (a : A) : M A := ([], Return a).

Definition bind {A B} (c : M A) (k : A -> M B) : M B :=
  match c with
  | (t, Return a) => let '(t', r) := k a in (t ++ t', r)
  | (t, Raise e) => (t, Raise e)
  end.

Definition lift {A} (o : outcome A) : M A := ([], o).

Definition emit (ev : event) : M unit := ([ev], Return tt).

(** [try: body  except Exception as e: handler(str(e))] *)
Definition try_except_Exception {A} (body : M A) (handler : string -> M A) : M A :=
  match body with
  | (t, Raise (Exc msg)) => let '(t', r) := handler msg in (t ++ t', r)
  | other => other
  end.

Declare Scope py_scope.
Delimit Scope py_scope with py.
Notation "x <- c ;; k" := (bind c (fun x => k))
  (at level 61, c at next level, right associativity) : py_scope.
Notation "c ;;; k" := (bind c (fun _ => k))
  (at level 61, right associativity) : py_scope.

(** Values that reach [json.dumps]; a dict keeps its insertion order. *)
#[local] Unset Elimination Schemes.
Inductive pyval : Type :=
  | PBool (b : bool)
  | PStr (s : string)
  | PFloat (f : spec_float)
  | PList (l : list pyval)
  | PDict (d : list (string * pyval)).
#[local] Set Elimination Schemes.

Definition dict : Type := list (string * pyval).

Fixpoint dict_get (k : string) (d : dict) : option pyval :=
  match d with
  | [] => None
  | (k', v) :: d' => if String.eqb k k' then Some v else dict_get k d'
  end.

(** [l[i]] on a Python list, for an index that is not negative. *)
Definition list_getitem {A} (l : list A) (i : nat) : outcome A :=
  match nth_error l i with
  | Some x => Return x
  | None => Raise (Exc "list index out of range")
  end.

Fixpoint enumerate_from {A} (i : nat) (l : list A) : list (nat * A) :=
  match l with
  | [] => []
  | x :: l' => (i, x) :: enumerate_from (S i) l'
  end.

Definition enumerate {A} (l : list A) : list (nat * A) := enumerate_from 0 l.

(** [for x in l: s = body(s, x)], stopping at the first exception. *)
Fixpoint for_each {A S} (l : list A) (body : S -> A -> M S) (s : S) : M S :=
  match l with
  | [] => ret s
  | x :: l' => bind (body s x) (for_each l' body)
  end.

(** The lines the script's own calls of [print] wrote, in order.  What a
    library writes to standard output while it is called (the progress bar
    of [model.predict]) is not an event of the script and is not here. *)
Definition stdout (t : list event) : list string :=
  flat_map (fun ev => match ev with EvPrint s => [s] | _ => [] end) t.

End Py.

Import Py.
Local Open Scope py_scope.

(* ===================================================================== *)
(** * numpy *)
(* ===================================================================== *)

Module Np.

Definition decimal (n : nat) : string := NilEmpty.string_of_uint (Nat.to_uint n).

(** The text of numpy's [IndexError] for index [i] on a first axis of
    length [size]. *)
Definition index_error (i size : nat) : string :=
  ("index " ++ decimal i ++ " is out of bounds for axis 0 with size " ++ decimal size)%string.

(** [a[i]] along the first axis of an array. *)
Definition getitem {A} (a : list A) (i : nat) : outcome A :=
  match nth_error a i with
  | Some x => Return x
  | None => Raise (Exc (index_error i (List.length a)))
  end.

(** The scan of [np.argmax] over a float array: [mp] is the running maximum,
    [best] its index, [i] the index of the head of [l].  An element replaces
    the maximum when [x <= mp] is false, and the scan stops at the first NaN. *)
Fixpoint argmax_scan (mp : float32) (best i : nat) (l : list float32) : nat :=
  match l with
  | [] => best
  | x :: l' =>
      if negb (f32_leb x mp)
      then if f32_isnan x then i else argmax_scan x i (S i) l'
      else argmax_scan mp best (S i) l'
  end.

Definition argmax (a : list float32) : outcome nat :=
  match a with
  | [] => Raise (Exc "attempt to get argmax of an empty sequence")
  | x :: l => Return (if f32_isnan x then O else argmax_scan x 0 1 l)
  end.

(** [np.expand_dims(a, axis=0)] *)
Definition expand_dims0 {A} (a : A) : list A := [a].

End Np.

(* ===================================================================== *)
(** * keras.preprocessing.image *)
(* ===================================================================== *)

Module Image.

(** An RGB image as [load_img] returns it: rows of pixels, 8 bits a channel. *)
Definition rgb : Type := (byte * byte * byte)%type.
Definition image : Type := list (list rgb).

Definition f32_of_byte (b : byte) : float32 := f32_of_Z (Z.of_N (Byte.to_N b)).

(** [img_to_array]: height x width x channel, dtype float32. *)
Definition img_to_array (img : image) : list (list (list float32)) :=
  map (map (fun px : rgb =>
    let '(r, g, b) := px in [f32_of_byte r; f32_of_byte g; f32_of_byte b])) img.

End Image.

Import Image.

(** batch x height x width x channel *)
Definition tensor : Type := list (list (list (list float32))).

(** [a / c] for a 4-d float32 array and a scalar: numpy takes the Python
    scalar [255.0] into the dtype of the array and divides in binary32. *)
Definition tensor_div (a : tensor) (c : float32) : tensor :=
  map (map (map (map (fun x => f32_div x c)))) a.

(** A loaded Keras model, seen through its [predict]: batch of images in,
    batch of score rows out. *)
Definition keras_model : Type := tensor -> outcome (list (list float32)).

(* ===================================================================== *)
(** * waste_classifier.py *)
(* ===================================================================== *)

Definition CATEGORIES : list string :=
  ["Paper"; "Glass"; "Metal"; "Plastic"; "Trash"]%string.

Definition usage : string :=
  "Usage: python waste_classifier.py <model_path> <image_path>"%string.

Section Script.

(** The libraries the script calls. *)
Variable os_path_exists : string -> bool.
Variable load_model : string -> outcome keras_model.
Variable load_img : string -> nat * nat -> outcome image.
Variable json_dumps : pyval -> string.

Definition print (s : string) : M unit := emit (EvPrint s).

Record WasteClassifier : Type := { model : keras_model }.

(** [WasteClassifier.__init__] *)
Definition init (model_path : string) : M WasteClassifier :=
  emit (EvLoadModel model_path) ;;;
  m <- lift (load_model model_path) ;;
  ret {| model := m |}.

Definition preprocess_image (img_path : string) : M tensor :=
  emit (EvLoadImg img_path) ;;;
  img <- lift (load_img img_path (224%nat, 224%nat)) ;;
  let img_array := img_to_array img in
  let img_array := Np.expand_dims0 img_array in
  let img_array := tensor_div img_array (f32_of_Z 255) in
  ret img_array.

Definition prediction_entry (category : string) (score : float32) : pyval :=
  PDict [("category"%string, PStr category);
         ("confidence"%string, PFloat (to_float score))].

Definition classify (self : WasteClassifier) (img_path : string) : M dict :=
  try_except_Exception
    (img_array <- preprocess_image img_path ;;
     emit EvPredict ;;;
     predictions <- lift (model self img_array) ;;
     row <- lift (Np.getitem predictions 0) ;;
     top_prediction_idx <- lift (Np.argmax row) ;;
     score <- lift (Np.getitem row top_prediction_idx) ;;
     let top_prediction_score := to_float score in
     top_category <- lift (list_getitem CATEGORIES top_prediction_idx) ;;
     all_predictions <-
       for_each (enumerate row)
         (fun all_predictions '(i, score) =>
            category <- lift (list_getitem CATEGORIES i) ;;
            ret (all_predictions ++ [prediction_entry category score]))
         [] ;;
     ret [("success"%string, PBool true);
          ("category"%string, PStr top_category);
          ("confidence"%string, PFloat top_prediction_score);
          ("all_predictions"%string, PList all_predictions)])
    (fun msg =>
       ret [("success"%string, PBool false);
            ("error"%string, PStr msg)]).

Definition exists_ (path : string) : M bool :=
  emit (EvExists path) ;;; ret (os_path_exists path).

Definition error_json (msg : string) : pyval :=
  PDict [("success"%string, PBool false); ("error"%string, PStr msg)].

Definition main (argv : list string) : M unit :=
  if negb (Nat.eqb (List.length argv) 3) then print usage
  else
    model_path <- lift (list_getitem argv 1) ;;
    image_path <- lift (list_getitem argv 2) ;;
    model_found <- exists_ model_path ;;
    if negb model_found
    then print (json_dumps (error_json ("Model not found: " ++ model_path)%string))
    else
      image_found <- exists_ image_path ;;
      if negb image_found
      then print (json_dumps (error_json ("Image not found: " ++ image_path)%string))
      else
        classifier <- init model_path ;;
        result <- classify classifier image_path ;;
        print (json_dumps (PDict result)).

End Script.

(* ===================================================================== *)
(** * Vocabulary of the statements *)
(* ===================================================================== *)

(** ** Reading a result record *)

Definition succeeded (d : dict) : Prop :=
  dict_get "success" d = Some (PBool true).

Definition category_of (d : dict) : option string :=
  match dict_get "category" d with Some (PStr c) => Some c | _ => None end.

Definition confidence_of (d : dict) : option spec_float :=
  match dict_get "confidence" d with Some (PFloat x) => Some x | _ => None end.

Definition error_of (d : dict) : option string :=
  match dict_get "error" d with Some (PStr m) => Some m | _ => None end.

Definition entry_dict (v : pyval) : dict :=
  match v with PDict d => d | _ => [] end.

(** The entries of the [all_predictions] list, each as its record. *)
Definition all_predictions_of (d : dict) : list dict :=
  match dict_get "all_predictions" d with
  | Some (PList l) => map entry_dict l
  | _ => []
  end.

(** A record as [main] prints it: [success], and with it either the three
    fields of a result or the [error] field. *)
Definition well_formed_record (d : dict) : Prop :=
  (succeeded d /\ category_of d <> None /\ confidence_of d <> None /\
   dict_get "all_predictions" d <> None) \/
  (dict_get "success" d = Some (PBool false) /\ error_of d <> None).

(** No call of the script's [print] among the events. *)
Definition prints_nothing (t : list event) : Prop :=
  forall line, ~ In (EvPrint line) t.

(** ** The run of [classify] in closed form *)

(** The array [preprocess_image] builds from a loaded image. *)
Definition tensor_of (img : image) : tensor :=
  tensor_div (Np.expand_dims0 (img_to_array img)) (f32_of_Z 255).

(** [predictions[0]] of the run, when the run gets that far. *)
Definition predictions_row (load_img : string -> nat * nat -> outcome image)
    (self : WasteClassifier) (img_path : string) : option (list float32) :=
  match load_img img_path (224%nat, 224%nat) with
  | Return img =>
      match model self (tensor_of img) with
      | Return (row :: _) => Some row
      | _ => None
      end
  | Raise _ => None
  end.

Definition entries (row : list float32) : list pyval :=
  map (fun '(c, s) => prediction_entry c s) (combine CATEGORIES row).

(** The record of one entry of [all_predictions]. *)
Definition entry_fields (c : string) (s : float32) : dict :=
  [("category"%string, PStr c); ("confidence"%string, PFloat (to_float s))].

Definition failure_dict (msg : string) : dict :=
  [("success"%string, PBool false); ("error"%string, PStr msg)].

Definition success_dict (c : string) (s : float32) (row : list float32) : dict :=
  [("success"%string, PBool true);
   ("category"%string, PStr c);
   ("confidence"%string, PFloat (to_float s));
   ("all_predictions"%string, PList (entries row))].

(** What [classify] returns once [predictions[0]] is [row]. *)
Definition row_result (row : list float32) : dict :=
  match Np.argmax row with
  | Raise _ => failure_dict "attempt to get argmax of an empty sequence"
  | Return i =>
      match nth_error row i with
      | None => failure_dict (Np.index_error i (List.length row))
      | Some s =>
          match nth_error CATEGORIES i with
          | None => failure_dict "list index out of range"
          | Some c =>
              if (List.length row <=? 5)%nat then success_dict c s row
              else failure_dict "list index out of range"
          end
      end
  end.

Definition prepend {A} (t : list event) (c : M A) : M A :=
  let '(t', r) := c in (t ++ t', r).

(** ** Order *)

(** [r] is the index [np.argmax] documents: nothing in [row] is strictly
    greater than [row[r]], and everything before [r] is a number strictly
    smaller, unless [row[r]] is the first NaN of the row. *)
Definition is_argmax (row : list float32) (r : nat) : Prop :=
  exists w, nth_error row r = Some w /\
    (forall j y, nth_error row j = Some y -> f32_ltb w y = false) /\
    (forall j y, (j < r)%nat -> nth_error row j = Some y ->
       f32_isnan y = false /\ (f32_isnan w = true \/ f32_ltb y w = true)).

(** The numbers of [spec_float] ordered as IEEE orders them, through a
    lexicographic key: sign class, then exponent, then mantissa. *)
Definition key (x : spec_float) : Z * Z * Z :=
  match x with
  | S754_infinity true => (-2, 0, 0)
  | S754_finite true m e => (-1, - e, - Zpos m)
  | S754_zero _ | S754_nan => (0, 0, 0)
  | S754_finite false m e => (1, e, Zpos m)
  | S754_infinity false => (2, 0, 0)
  end.

Definition key_lt (a b : Z * Z * Z) : Prop :=
  let '(a1, a2, a3) := a in
  let '(b1, b2, b3) := b in
  a1 < b1 \/ (a1 = b1 /\ (a2 < b2 \/ (a2 = b2 /\ a3 < b3))).

(** A finite binary32 value rewritten with a 53-bit mantissa. *)
Definition widen_finite (s : bool) (m : positive) (e : Z) : spec_float :=
  let d := 53 - Zpos (digits2_pos m) in
  S754_finite s (Pos.iter xO m (Z.to_pos d)) (e - d).

(** A score, or a confidence, that is a probability. *)
Definition in_unit32 (s : float32) : Prop :=
  f32_leb f32_zero s = true /\ f32_leb s f32_one = true.

Definition in_unit64 (x : spec_float) : Prop :=
  leb zero64 x = true /\ leb x one64 = true.


(** The value a channel of intensity [n] has in the array of
    [preprocess_image]. *)
Definition normalized_level (n : nat) : float32 :=
  f32_div (f32_of_Z (Z.of_nat n)) (f32_of_Z 255).

(** One pixel channel after [img_to_array] and the division. *)
Definition normalize (b : byte) : float32 := f32_div (f32_of_byte b) (f32_of_Z 255).

(* ===================================================================== *)
(** * Concrete worlds *)
(* ===================================================================== *)

Module Sample.

(** A file system with a model file and a picture. *)
Definition fs (p : string) : bool :=
  (String.eqb p "model.h5" || String.eqb p "cat.jpg")%bool.

(** [load_img] that decodes every file to one flat colour at the size asked. *)
Definition flat_image (_ : string) (size : nat * nat) : outcome image :=
  let '(h, w) := size in Return (repeat (repeat (x00, x80, xff) w) h).

(** A softmax-like model: 1/8, 1/2, 1/8, 1/8, 1/8. *)
Definition five_way : keras_model :=
  fun _ => Return [[f32_scaled 1 (-3); f32_scaled 1 (-1); f32_scaled 1 (-3);
                    f32_scaled 1 (-3); f32_scaled 1 (-3)]].

(** A model whose two best scores tie: 1/4, 1/2, 1/2, 1/4, 1/4. *)
Definition tied : keras_model :=
  fun _ => Return [[f32_scaled 1 (-2); f32_scaled 1 (-1); f32_scaled 1 (-1);
                    f32_scaled 1 (-2); f32_scaled 1 (-2)]].

(** A model with six output units, one more than [CATEGORIES] has names. *)
Definition six_way : keras_model :=
  fun _ => Return [[f32_scaled 1 (-3); f32_scaled 1 (-3); f32_scaled 1 (-3);
                    f32_scaled 1 (-3); f32_scaled 1 (-3); f32_scaled 3 (-3)]].

(** A model whose output row is empty. *)
Definition no_output : keras_model := fun _ => Return [[]].

(** A model whose third score is not a number. *)
Definition with_nan : keras_model :=
  fun _ => Return [[f32_scaled 1 (-2); f32_scaled 3 (-2); f32_nan; f32_scaled 1 (-1)]].

(** [load_img] on a file that is not an image. *)
Definition unreadable (_ : string) (_ : nat * nat) : outcome image :=
  Raise (Exc "cannot identify image file").

(** A model whose last layer is linear: its scores are logits,
    2.0, -1.0, 0.5, 0.0, 0.25. *)
Definition logits : keras_model :=
  fun _ => Return [[f32_scaled 2 0; f32_scaled (-1) 0; f32_scaled 1 (-1);
                    f32_zero; f32_scaled 1 (-2)]].

(** A model with three output units. *)
Definition three_way : keras_model :=
  fun _ => Return [[f32_scaled 1 (-1); f32_scaled 1 (-2); f32_scaled 1 (-2)]].

(** A forward pass that is interrupted (Ctrl-C, or SIGINT from the parent
    process): [KeyboardInterrupt], whose [str()] is empty. *)
Definition interrupted : keras_model :=
  fun _ => Raise (BaseExc EmptyString).

(** A model whose forward pass fails with an ordinary exception. *)
Definition failing : keras_model :=
  fun _ => Raise (Exc "Graph execution error").

Definition classifier : WasteClassifier := {| model := five_way |}.

Definition loads (m : keras_model) (_ : string) : outcome keras_model := Return m.

(** [load_model] on a file that is not a model. *)
Definition corrupt (_ : string) : outcome keras_model :=
  Raise (Exc "Unable to open file (file signature not found)").

(** [json.dumps] is left symbolic: the text keeps the record it was given. *)
Definition dumps (v : pyval) : string :=
  match v with
  | PDict (("success"%string, PBool true) :: _) => "{success: true, ...}"
  | PDict [("success"%string, PBool false); ("error"%string, PStr m)] =>
      "{success: false, error: " ++ m ++ "}"
  | _ => "?"
  end.

Definition argv : list string := ["waste_classifier.py"; "model.h5"; "cat.jpg"]%string.

End Sample.

(* ===================================================================== *)
(** * Facts about IEEE values *)
(* ===================================================================== *)

Lemma digits2_pos_bounds (m : positive) :
  2 ^ (Zpos (digits2_pos m) - 1) <= Zpos m < 2 ^ Zpos (digits2_pos m).
Proof.
  induction m as [m IH | m IH |]; cbn [digits2_pos].
  - rewrite Pos2Z.inj_succ.
    replace (Z.succ (Zpos (digits2_pos m)) - 1) with (Z.succ (Zpos (digits2_pos m) - 1)) by lia.
    rewrite !Z.pow_succ_r by lia. lia.
  - rewrite Pos2Z.inj_succ.
    replace (Z.succ (Zpos (digits2_pos m)) - 1) with (Z.succ (Zpos (digits2_pos m) - 1)) by lia.
    rewrite !Z.pow_succ_r by lia. lia.
  - cbn. lia.
Qed.

Lemma iter_xO_Z (d m : positive) : Zpos (Pos.iter xO m d) = Zpos m * 2 ^ Zpos d.
Proof.
  change (Pos.iter xO m d) with (shift_pos d m).
  rewrite shift_pos_correct.
  rewrite Zpower_pos_nat, Zpower_nat_Z, positive_nat_Z. lia.
Qed.

Lemma digits2_pos_iter_xO (d m : positive) :
  digits2_pos (Pos.iter xO m d) = (digits2_pos m + d)%positive.
Proof.
  revert m. induction d using Pos.peano_ind; intros m.
  - cbn. lia.
  - rewrite Pos.iter_succ. cbn [digits2_pos]. rewrite IHd. lia.
Qed.

Lemma bounded32_inv m e :
  bounded 24 128 m e = true ->
  Zpos (digits2_pos m) <= 24 /\ -149 <= e <= 104 /\
  (Zpos (digits2_pos m) = 24 \/ e = -149).
Proof.
  unfold bounded, canonical_mantissa, fexp, emin. intros H.
  apply andb_true_iff in H. destruct H as [H1 H2].
  apply Z.eqb_eq in H1. apply Z.leb_le in H2. lia.
Qed.

Lemma binary_round64_exact s m e :
  Zpos (digits2_pos m) <= 24 -> -149 <= e <= 104 ->
  binary_round 53 1024 s m e = widen_finite s m e.
Proof.
  intros Hd He. unfold binary_round, widen_finite, shl_align.
  set (dg := Zpos (digits2_pos m)) in *.
  assert (Hf : fexp 53 1024 (dg + e) = dg + e - 53) by (unfold fexp, emin; lia).
  rewrite Hf.
  replace (dg + e - 53 - e) with (dg - 53) by lia.
  replace (e - (53 - dg)) with (dg + e - 53) by lia.
  destruct (dg - 53) as [|p|p] eqn:Hp; try lia.
  assert (Hq : Z.to_pos (53 - dg) = p) by lia.
  rewrite Hq.
  unfold binary_round_aux, shr_fexp.
  cbn [Zdigits2 shr_record_of_loc].
  rewrite digits2_pos_iter_xO.
  assert (Hdg : Zpos (digits2_pos m + p) = 53) by (fold dg; lia).
  rewrite Hdg.
  assert (Hf2 : fexp 53 1024 (53 + (dg + e - 53)) = dg + e - 53) by (unfold fexp, emin; lia).
  rewrite Hf2, Z.sub_diag. cbn [shr shr_m loc_of_shr_record round_nearest_even Zdigits2].
  rewrite digits2_pos_iter_xO, Hdg, Hf2, Z.sub_diag. cbn [shr shr_m].
  replace (dg + e - 53 <=? 1024 - 53) with true by (symmetry; apply Z.leb_le; lia).
  reflexivity.
Qed.

Lemma digits2_pos_mono (m1 m2 : positive) :
  Zpos (digits2_pos m1) < Zpos (digits2_pos m2) -> (m1 < m2)%positive.
Proof.
  intros H.
  pose proof (digits2_pos_bounds m1) as [_ H1].
  pose proof (digits2_pos_bounds m2) as [H2 _].
  assert (2 ^ Zpos (digits2_pos m1) <= 2 ^ (Zpos (digits2_pos m2) - 1))
    by (apply Z.pow_le_mono_r; lia).
  lia.
Qed.

Lemma compare_iter_xO (d m1 m2 : positive) :
  (Pos.iter xO m1 d ?= Pos.iter xO m2 d)%positive = (m1 ?= m2)%positive.
Proof.
  rewrite !Pos2Z.inj_compare, !iter_xO_Z.
  assert (0 < 2 ^ Zpos d) by (apply Z.pow_pos_nonneg; lia).
  destruct (Z.compare_spec (Zpos m1) (Zpos m2)) as [E|E|E].
  - rewrite E. apply Z.compare_refl.
  - apply Z.compare_lt_iff. nia.
  - apply Z.compare_gt_iff. nia.
Qed.

Lemma widen_finite_compare s m1 e1 m2 e2 :
  bounded 24 128 m1 e1 = true -> bounded 24 128 m2 e2 = true ->
  SFcompare (widen_finite s m1 e1) (widen_finite s m2 e2) =
  SFcompare (S754_finite s m1 e1) (S754_finite s m2 e2).
Proof.
  intros H1 H2.
  apply bounded32_inv in H1. apply bounded32_inv in H2.
  destruct H1 as (D1 & E1 & C1). destruct H2 as (D2 & E2 & C2).
  unfold widen_finite, SFcompare.
  rewrite !Pos.compare_cont_spec. cbn [Pos.switch_Eq].
  set (d1 := Zpos (digits2_pos m1)) in *. set (d2 := Zpos (digits2_pos m2)) in *.
  assert (Hcmp :
    match e1 - (53 - d1) ?= e2 - (53 - d2) with
    | Eq => (Pos.iter xO m1 (Z.to_pos (53 - d1)) ?= Pos.iter xO m2 (Z.to_pos (53 - d2)))%positive
    | c => c end =
    match e1 ?= e2 with Eq => (m1 ?= m2)%positive | c => c end).
  { destruct (Z.compare_spec e1 e2) as [E|E|E].
    - subst e2.
      destruct (Z.compare_spec d1 d2) as [D|D|D].
      + replace (e1 - (53 - d1) ?= e1 - (53 - d2)) with Eq
          by (symmetry; apply Z.compare_eq_iff; lia).
        rewrite D. apply compare_iter_xO.
      + replace (e1 - (53 - d1) ?= e1 - (53 - d2)) with Lt
          by (symmetry; apply Z.compare_lt_iff; lia).
        symmetry. apply Pos.compare_lt_iff. apply digits2_pos_mono. exact D.
      + replace (e1 - (53 - d1) ?= e1 - (53 - d2)) with Gt
          by (symmetry; apply Z.compare_gt_iff; lia).
        symmetry. apply Pos.compare_gt_iff. apply digits2_pos_mono. exact D.
    - replace (e1 - (53 - d1) ?= e2 - (53 - d2)) with Lt
        by (symmetry; apply Z.compare_lt_iff; lia). reflexivity.
    - replace (e1 - (53 - d1) ?= e2 - (53 - d2)) with Gt
        by (symmetry; apply Z.compare_gt_iff; lia). reflexivity. }
  revert Hcmp.
  generalize (e1 - (53 - d1) ?= e2 - (53 - d2)) (e1 ?= e2) (m1 ?= m2)%positive
    (Pos.iter xO m1 (Z.to_pos (53 - d1)) ?= Pos.iter xO m2 (Z.to_pos (53 - d2)))%positive.
  intros X U V Y Hcmp.
  destruct s, X, U; cbn in Hcmp; subst; try discriminate; try reflexivity;
    destruct V; reflexivity.
Qed.

Lemma SFcompare_key (a b : spec_float) :
  isnan a = false -> isnan b = false ->
  exists c, SFcompare a b = Some c /\
    match c with
    | Lt => key_lt (key a) (key b)
    | Eq => key a = key b
    | Gt => key_lt (key b) (key a)
    end.
Proof.
  intros Ha Hb.
  destruct a as [sa|sa| |sa ma ea]; try discriminate;
  destruct b as [sb|sb| |sb mb eb]; try discriminate;
  try destruct sa; try destruct sb; cbn [SFcompare key];
  try (eexists; split; [reflexivity|cbn; try reflexivity; lia]).
  - change (Pos.compare_cont Eq ma mb) with (ma ?= mb)%positive.
    rewrite Pos2Z.inj_compare.
    destruct (Z.compare_spec ea eb); [destruct (Z.compare_spec (Zpos ma) (Zpos mb))| |];
      eexists; (split; [reflexivity|cbn; try (f_equal; lia); try lia; try congruence]).
  - change (Pos.compare_cont Eq ma mb) with (ma ?= mb)%positive.
    rewrite Pos2Z.inj_compare.
    destruct (Z.compare_spec ea eb); [destruct (Z.compare_spec (Zpos ma) (Zpos mb))| |];
      eexists; (split; [reflexivity|cbn; try (f_equal; lia); try lia; try congruence]).
Qed.

Lemma key_lt_irrefl k : ~ key_lt k k.
Proof. destruct k as [[a b] c]. cbn. lia. Qed.

Lemma key_lt_trans k1 k2 k3 : key_lt k1 k2 -> key_lt k2 k3 -> key_lt k1 k3.
Proof. destruct k1 as [[a1 b1] c1], k2 as [[a2 b2] c2], k3 as [[a3 b3] c3]. cbn. lia. Qed.

Lemma key_lt_asym k1 k2 : key_lt k1 k2 -> ~ key_lt k2 k1.
Proof. intros H1 H2. exact (key_lt_irrefl _ (key_lt_trans _ _ _ H1 H2)). Qed.

Lemma SFcompare_nan_l a b : isnan a = true -> SFcompare a b = None.
Proof. destruct a; try discriminate. reflexivity. Qed.

Lemma SFcompare_nan_r a b : isnan b = true -> SFcompare a b = None.
Proof. destruct b; try discriminate. destruct a; reflexivity. Qed.

Lemma ltb_key a b :
  ltb a b = true <-> isnan a = false /\ isnan b = false /\ key_lt (key a) (key b).
Proof.
  unfold ltb, SFltb. split.
  - intros H.
    destruct (isnan a) eqn:Ha; [rewrite SFcompare_nan_l in H by assumption; discriminate|].
    destruct (isnan b) eqn:Hb; [rewrite SFcompare_nan_r in H by assumption; discriminate|].
    destruct (SFcompare_key a b Ha Hb) as (c & Hc & Hk). rewrite Hc in H.
    destruct c; try discriminate. auto.
  - intros (Ha & Hb & Hk).
    destruct (SFcompare_key a b Ha Hb) as (c & Hc & Hk'). rewrite Hc.
    destruct c; auto.
    + rewrite Hk' in Hk. now apply key_lt_irrefl in Hk.
    + now apply key_lt_asym in Hk.
Qed.

Lemma eqb_key a b :
  eqb a b = true <-> isnan a = false /\ isnan b = false /\ key a = key b.
Proof.
  unfold eqb, SFeqb. split.
  - intros H.
    destruct (isnan a) eqn:Ha; [rewrite SFcompare_nan_l in H by assumption; discriminate|].
    destruct (isnan b) eqn:Hb; [rewrite SFcompare_nan_r in H by assumption; discriminate|].
    destruct (SFcompare_key a b Ha Hb) as (c & Hc & Hk). rewrite Hc in H.
    destruct c; try discriminate. auto.
  - intros (Ha & Hb & Hk).
    destruct (SFcompare_key a b Ha Hb) as (c & Hc & Hk'). rewrite Hc.
    destruct c; auto; rewrite Hk in Hk'; now apply key_lt_irrefl in Hk'.
Qed.

Lemma leb_key a b :
  leb a b = true <->
  isnan a = false /\ isnan b = false /\ (key_lt (key a) (key b) \/ key a = key b).
Proof.
  unfold leb, SFleb. split.
  - intros H.
    destruct (isnan a) eqn:Ha; [rewrite SFcompare_nan_l in H by assumption; discriminate|].
    destruct (isnan b) eqn:Hb; [rewrite SFcompare_nan_r in H by assumption; discriminate|].
    destruct (SFcompare_key a b Ha Hb) as (c & Hc & Hk). rewrite Hc in H.
    destruct c; try discriminate; auto.
  - intros (Ha & Hb & Hk).
    destruct (SFcompare_key a b Ha Hb) as (c & Hc & Hk'). rewrite Hc.
    destruct c; auto. destruct Hk as [Hk|Hk].
    + now apply key_lt_asym in Hk.
    + rewrite Hk in Hk'. now apply key_lt_irrefl in Hk'.
Qed.

Lemma key_lt_total k1 k2 : key_lt k1 k2 \/ k1 = k2 \/ key_lt k2 k1.
Proof.
  destruct k1 as [[a1 b1] c1], k2 as [[a2 b2] c2]. cbn.
  destruct (Z.lt_trichotomy a1 a2) as [|[|]]; try lia.
  destruct (Z.lt_trichotomy b1 b2) as [|[|]]; try lia.
  destruct (Z.lt_trichotomy c1 c2) as [|[|]]; try lia.
  subst. auto.
Qed.

(** [not (x <= mp)] between two numbers means [mp < x]. *)
Lemma not_leb_ltb x mp :
  isnan x = false -> isnan mp = false -> leb x mp = false -> ltb mp x = true.
Proof.
  intros Hx Hm H. apply ltb_key. repeat split; auto.
  destruct (key_lt_total (key mp) (key x)) as [L|[E|G]]; auto.
  - assert (leb x mp = true) by (apply leb_key; auto). congruence.
  - assert (leb x mp = true) by (apply leb_key; auto). congruence.
Qed.

Lemma leb_ltb_trans a b c : leb a b = true -> ltb b c = true -> ltb a c = true.
Proof.
  rewrite leb_key, !ltb_key. intros (Ha & Hb & [H|H]) (_ & Hc & H'); repeat split; auto.
  - eapply key_lt_trans; eauto.
  - now rewrite H.
Qed.

Lemma ltb_trans a b c : ltb a b = true -> ltb b c = true -> ltb a c = true.
Proof.
  rewrite !ltb_key. intros (Ha & Hb & H) (_ & Hc & H'); repeat split; auto.
  eapply key_lt_trans; eauto.
Qed.

Lemma ltb_leb a b : ltb a b = true -> leb a b = true.
Proof. rewrite ltb_key, leb_key. intuition. Qed.

Lemma leb_not_ltb a b : leb a b = true -> ltb b a = false.
Proof.
  intros H. destruct (ltb b a) eqn:E; auto.
  apply leb_key in H. apply ltb_key in E.
  destruct H as (_ & _ & [H|H]), E as (_ & _ & E).
  - now apply key_lt_asym in H.
  - rewrite H in E. now apply key_lt_irrefl in E.
Qed.

Lemma ltb_not_eqb a b : ltb a b = true -> eqb a b = false.
Proof.
  intros H. destruct (eqb a b) eqn:E; auto.
  apply ltb_key in H. apply eqb_key in E.
  destruct H as (_ & _ & H), E as (_ & _ & E).
  rewrite E in H. now apply key_lt_irrefl in H.
Qed.

Lemma leb_refl a : isnan a = false -> leb a a = true.
Proof. intros H. apply leb_key. auto. Qed.

Lemma ltb_nan_l a b : isnan a = true -> ltb a b = false.
Proof. intros H. unfold ltb, SFltb. now rewrite SFcompare_nan_l. Qed.

Lemma eqb_nan_r a b : isnan b = true -> eqb a b = false.
Proof. intros H. unfold eqb, SFeqb. now rewrite SFcompare_nan_r. Qed.

Lemma leb_nan_l a b : isnan a = true -> leb a b = false.
Proof. intros H. unfold leb, SFleb. now rewrite SFcompare_nan_l. Qed.

(* ===================================================================== *)
(** * Lists and the loop of [classify] *)
(* ===================================================================== *)

Lemma list_getitem_lt {A} (l : list A) (i : nat) :
  (i < List.length l)%nat -> exists x, nth_error l i = Some x /\ list_getitem l i = Return x.
Proof.
  intros H. unfold list_getitem.
  destruct (nth_error l i) as [x|] eqn:E.
  - eauto.
  - apply nth_error_None in E. lia.
Qed.

Lemma list_getitem_ge {A} (l : list A) (i : nat) :
  (List.length l <= i)%nat -> list_getitem l i = Raise (Exc "list index out of range").
Proof.
  intros H. unfold list_getitem.
  apply nth_error_None in H. now rewrite H.
Qed.

Lemma skipn_nth_error_cons {A} (l : list A) (i : nat) (x : A) :
  nth_error l i = Some x -> skipn i l = x :: skipn (S i) l.
Proof.
  revert i. induction l as [|y l IH]; intros [|i] H; try discriminate.
  - now inversion H.
  - cbn in H. cbn [skipn]. rewrite (IH _ H). reflexivity.
Qed.

Lemma loop_spec (cats : list string) (row : list float32) (i : nat) (acc : list pyval) :
  (i <= List.length cats)%nat ->
  for_each (enumerate_from i row)
    (fun all_predictions '(i, score) =>
            category <- lift (list_getitem cats i) ;;
            ret (all_predictions ++ [prediction_entry category score])) acc =
  if (i + List.length row <=? List.length cats)%nat
  then ret (acc ++ map (fun '(c, s) => prediction_entry c s) (combine (skipn i cats) row))
  else ([], Raise (Exc "list index out of range")).
Proof.
  revert i acc. induction row as [|s row IH]; intros i acc Hi.
  - cbn [enumerate_from for_each List.length].
    replace (i + 0 <=? List.length cats)%nat with true by (symmetry; apply Nat.leb_le; lia).
    destruct (skipn i cats); cbn; now rewrite app_nil_r.
  - cbn [enumerate_from for_each List.length].
    destruct (Nat.eq_dec i (List.length cats)) as [E|E].
    + rewrite list_getitem_ge by lia.
      replace (i + S (List.length row) <=? List.length cats)%nat with false
        by (symmetry; apply Nat.leb_gt; lia).
      reflexivity.
    + destruct (list_getitem_lt cats i) as (c & Hc & Hg); [lia|].
      rewrite Hg. unfold lift, bind at 2, ret. cbn [app].
      unfold bind. rewrite IH by lia.
      replace (S i + List.length row)%nat with (i + S (List.length row))%nat by lia.
      destruct (i + S (List.length row) <=? List.length cats)%nat; [|reflexivity].
      unfold ret. cbn [app]. f_equal. f_equal.
      rewrite <- app_assoc. f_equal. cbn [app].
      now rewrite (skipn_nth_error_cons _ _ _ Hc).
Qed.

(* ===================================================================== *)
(** * [np.argmax] *)
(* ===================================================================== *)

Lemma argmax_scan_spec (l : list float32) :
  forall (pre : list float32) (mp : float32) (best : nat),
    nth_error pre best = Some mp ->
    f32_isnan mp = false ->
    (forall j y, nth_error pre j = Some y -> f32_leb y mp = true) ->
    (forall j y, (j < best)%nat -> nth_error pre j = Some y -> f32_ltb y mp = true) ->
    is_argmax (pre ++ l) (Np.argmax_scan mp best (List.length pre) l).
Proof.
  induction l as [|x l IH]; intros pre mp best Hbest Hnan Hle Hlt.
  - cbn [Np.argmax_scan]. rewrite app_nil_r. exists mp. split; [assumption|]. split.
    + intros j y Hy. apply leb_not_ltb. exact (Hle j y Hy).
    + intros j y Hj Hy. split.
      * specialize (Hle j y Hy). apply leb_key in Hle. tauto.
      * right. exact (Hlt j y Hj Hy).
  - cbn [Np.argmax_scan].
    assert (Hpre : pre ++ x :: l = (pre ++ [x]) ++ l) by (now rewrite <- app_assoc).
    assert (Hlen : S (List.length pre) = List.length (pre ++ [x]))
      by (rewrite length_app; cbn; lia).
    destruct (f32_leb x mp) eqn:Hx; cbn [negb].
    + rewrite Hpre, Hlen. apply IH; auto.
      * rewrite nth_error_app1; [assumption|]. apply nth_error_Some. congruence.
      * intros j y Hy.
        destruct (Nat.lt_ge_cases j (List.length pre)) as [Hj|Hj].
        -- rewrite nth_error_app1 in Hy by assumption. eauto.
        -- rewrite nth_error_app2 in Hy by assumption.
           destruct (j - List.length pre)%nat as [|k]; cbn in Hy.
           ++ inversion Hy; subst. assumption.
           ++ destruct k; discriminate.
      * intros j y Hj Hy.
        assert (best < List.length pre)%nat by (apply nth_error_Some; congruence).
        rewrite nth_error_app1 in Hy by lia. eauto.
    + destruct (f32_isnan x) eqn:Hxn.
      * exists x. split.
        { rewrite nth_error_app2 by lia. now rewrite Nat.sub_diag. }
        split.
        { intros j y _. now apply ltb_nan_l. }
        { intros j y Hj Hy. rewrite nth_error_app1 in Hy by assumption.
          split; [|now left].
          specialize (Hle j y Hy). apply leb_key in Hle. tauto. }
      * assert (Hgt : f32_ltb mp x = true) by (now apply not_leb_ltb).
        rewrite Hpre, Hlen. apply IH; auto.
        -- rewrite nth_error_app2 by lia. now rewrite Nat.sub_diag.
        -- intros j y Hy.
           destruct (Nat.lt_ge_cases j (List.length pre)) as [Hj|Hj].
           ++ rewrite nth_error_app1 in Hy by assumption.
              apply ltb_leb. eapply leb_ltb_trans; [exact (Hle j y Hy)|exact Hgt].
           ++ rewrite nth_error_app2 in Hy by assumption.
              destruct (j - List.length pre)%nat as [|k]; cbn in Hy.
              ** inversion Hy; subst. now apply leb_refl.
              ** destruct k; discriminate.
        -- intros j y Hj Hy. rewrite nth_error_app1 in Hy by assumption.
           eapply leb_ltb_trans; [exact (Hle j y Hy)|exact Hgt].
Qed.

Lemma argmax_spec (row : list float32) (r : nat) :
  Np.argmax row = Return r -> is_argmax row r.
Proof.
  destruct row as [|x l]; [discriminate|]. cbn [Np.argmax]. intros H.
  inversion H as [Hr]; clear H.
  destruct (f32_isnan x) eqn:Hx.
  - exists x. split; [reflexivity|]. split.
    + intros j y _. now apply ltb_nan_l.
    + intros j y Hj. lia.
  - apply (argmax_scan_spec l [x] x 0); auto.
    + intros [|[|j]] y Hy; cbn in Hy; try discriminate.
      inversion Hy; subst. now apply leb_refl.
    + intros j y Hj. lia.
Qed.

Lemma is_argmax_lt row r : is_argmax row r -> (r < List.length row)%nat.
Proof. intros (w & Hw & _). apply nth_error_Some. congruence. Qed.

(* ===================================================================== *)
(** * [float()] on a binary32 scalar *)
(* ===================================================================== *)

Lemma to_float_finite (x : float32) s m e :
  f32_val x = S754_finite s m e -> to_float x = widen_finite s m e.
Proof.
  intros E. unfold to_float. rewrite E.
  pose proof (f32_valid x) as V. unfold is_binary32 in V. rewrite E in V. cbn in V.
  apply bounded32_inv in V. destruct V as (D & B & _).
  destruct s; cbn [cond_Zopp Z.opp binary_normalize]; now apply binary_round64_exact.
Qed.

Lemma to_float_other (x : float32) :
  (forall s m e, f32_val x <> S754_finite s m e) -> to_float x = f32_val x.
Proof.
  intros H. unfold to_float. destruct (f32_val x) eqn:E; try reflexivity.
  now destruct (H s m e).
Qed.

(** Widening binary32 to binary64 keeps the order of the values. *)
Lemma to_float_compare (a b : float32) :
  SFcompare (to_float a) (to_float b) = SFcompare (f32_val a) (f32_val b).
Proof.
  pose proof (f32_valid a) as Va. pose proof (f32_valid b) as Vb.
  unfold is_binary32 in Va, Vb.
  destruct (f32_val a) as [sa|sa| |sa ma ea] eqn:Ea;
  destruct (f32_val b) as [sb|sb| |sb mb eb] eqn:Eb;
  try rewrite (to_float_finite a _ _ _ Ea);
  try rewrite (to_float_finite b _ _ _ Eb);
  try (rewrite (to_float_other a) by (intros; congruence));
  try (rewrite (to_float_other b) by (intros; congruence));
  try rewrite Ea; try rewrite Eb; try reflexivity.
  cbn in Va, Vb.
  destruct sa, sb; try reflexivity; now apply widen_finite_compare.
Qed.

Lemma to_float_ltb a b : ltb (to_float a) (to_float b) = f32_ltb a b.
Proof. unfold f32_ltb, ltb, SFltb. now rewrite to_float_compare. Qed.

Lemma to_float_leb a b : leb (to_float a) (to_float b) = f32_leb a b.
Proof. unfold f32_leb, leb, SFleb. now rewrite to_float_compare. Qed.

Lemma to_float_eqb a b : eqb (to_float a) (to_float b) = f32_eqb a b.
Proof. unfold f32_eqb, eqb, SFeqb. now rewrite to_float_compare. Qed.

Lemma to_float_isnan a : isnan (to_float a) = f32_isnan a.
Proof.
  unfold f32_isnan. destruct (f32_val a) eqn:E.
  1-3: rewrite to_float_other by (intros; congruence); now rewrite E.
  now rewrite (to_float_finite a _ _ _ E).
Qed.

Lemma digits2_pos_Z d m : Zpos (digits2_pos (Pos.iter xO m d)) = Zpos (digits2_pos m) + Zpos d.
Proof. rewrite digits2_pos_iter_xO. lia. Qed.

(** The result is a binary64 value. *)
Lemma to_float_valid a : is_binary64 (to_float a) = true.
Proof.
  pose proof (f32_valid a) as Va. unfold is_binary32 in Va.
  destruct (f32_val a) as [sa|sa| |sa ma ea] eqn:Ea.
  1-3: rewrite to_float_other by (intros; congruence); now rewrite Ea.
  rewrite (to_float_finite a _ _ _ Ea). cbn in Va.
  apply bounded32_inv in Va. destruct Va as (D & B & _).
  unfold is_binary64, widen_finite, valid_binary, bounded, canonical_mantissa.
  rewrite digits2_pos_Z.
  apply andb_true_iff. split.
  - apply Z.eqb_eq. unfold fexp, emin.
    pose proof (Pos2Z.is_pos (digits2_pos ma)). lia.
  - apply Z.leb_le. lia.
Qed.

(* ===================================================================== *)
(** * The runs of [classify] *)
(* ===================================================================== *)

Lemma bind_Return {A B} (t : list event) (a : A) (k : A -> M B) :
bind (t, Return a) k = prepend t (k a).
Proof. reflexivity. Qed.

Lemma prepend_nil {A} (c : M A) : prepend [] c = c.
Proof. now destruct c. Qed.

Lemma bind_lift_Return {A B} (a : A) (k : A -> M B) : bind (lift (Return a)) k = k a.
Proof. unfold lift. now rewrite bind_Return, prepend_nil. Qed.

Lemma bind_lift_Raise {A B} (e : exn) (k : A -> M B) :
bind (lift (Raise e)) k = ([], Raise e).
Proof. reflexivity. Qed.

Lemma bind_emit {B} (ev : event) (k : unit -> M B) :
bind (emit ev) k = prepend [ev] (k tt).
Proof. reflexivity. Qed.

Section ClassifyFacts.
Variable load_img : string -> nat * nat -> outcome image.

Lemma preprocess_image_eq (p : string) :
  preprocess_image load_img p =
  match load_img p (224%nat, 224%nat) with
  | Return img => ([EvLoadImg p], Return (tensor_of img))
  | Raise e => ([EvLoadImg p], Raise e)
  end.
Proof.
  unfold preprocess_image, bind, emit, lift, ret.
  destruct (load_img p (224%nat, 224%nat)); reflexivity.
Qed.

Lemma classify_eq (self : WasteClassifier) (p : string) :
  classify load_img self p =
  match load_img p (224%nat, 224%nat) with
  | Raise (Exc m) => ([EvLoadImg p], Return (failure_dict m))
  | Raise (BaseExc m) => ([EvLoadImg p], Raise (BaseExc m))
  | Return img =>
      match model self (tensor_of img) with
      | Raise (Exc m) => ([EvLoadImg p; EvPredict], Return (failure_dict m))
      | Raise (BaseExc m) => ([EvLoadImg p; EvPredict], Raise (BaseExc m))
      | Return [] => ([EvLoadImg p; EvPredict], Return (failure_dict (Np.index_error 0 0)))
      | Return (row :: _) => ([EvLoadImg p; EvPredict], Return (row_result row))
      end
  end.
Proof.
  unfold classify, enumerate. rewrite preprocess_image_eq.
  destruct (load_img p (224%nat, 224%nat)) as [img|[m|m]]; try reflexivity.
  rewrite bind_Return, bind_emit.
  destruct (model self (tensor_of img)) as [[|row rest]|[m|m]];
    rewrite ?bind_lift_Return, ?bind_lift_Raise; try reflexivity.
  cbn [Np.getitem nth_error]. rewrite bind_lift_Return.
  rewrite (loop_spec CATEGORIES) by lia.
  change (List.length CATEGORIES) with 5%nat. cbn [Nat.add skipn app].
  unfold row_result.
  destruct (Np.argmax row) as [i|e] eqn:Ea;
    rewrite ?bind_lift_Return, ?bind_lift_Raise.
  2:{ destruct row; [|discriminate]. inversion Ea; subst. reflexivity. }
  unfold Np.getitem.
  destruct (nth_error row i) as [s|] eqn:Es;
    rewrite ?bind_lift_Return, ?bind_lift_Raise; [|reflexivity].
  unfold list_getitem.
  destruct (nth_error CATEGORIES i) as [c|] eqn:Ec;
    rewrite ?bind_lift_Return, ?bind_lift_Raise; [|reflexivity].
  destruct (List.length row <=? 5)%nat; reflexivity.
Qed.
End ClassifyFacts.

(* ===================================================================== *)
(** * The result record *)
(* ===================================================================== *)

Lemma NoDup_CATEGORIES : NoDup CATEGORIES.
Proof.
  unfold CATEGORIES.
  repeat (constructor; [cbn; intuition discriminate|]). constructor.
Qed.

Lemma CATEGORIES_inj (i j : nat) (c : string) :
  nth_error CATEGORIES i = Some c -> nth_error CATEGORIES j = Some c -> i = j.
Proof.
  intros Hi Hj.
  apply (proj1 (NoDup_nth_error CATEGORIES) NoDup_CATEGORIES).
  - apply nth_error_Some. congruence.
  - congruence.
Qed.

Lemma nth_error_combine {A B} (l1 : list A) (l2 : list B) (j : nat) :
  nth_error (combine l1 l2) j =
  match nth_error l1 j, nth_error l2 j with
  | Some a, Some b => Some (a, b)
  | _, _ => None
  end.
Proof.
  revert l2 j. induction l1 as [|a l1 IH]; intros [|b l2] [|j]; cbn; try reflexivity.
  - now destruct (nth_error l1 j).
  - apply IH.
Qed.

Lemma all_predictions_success (c : string) (s : float32) (row : list float32) :
  all_predictions_of (success_dict c s row) =
  map (fun '(c, s) => entry_fields c s) (combine CATEGORIES row).
Proof.
  unfold all_predictions_of, success_dict. cbn [dict_get String.eqb Ascii.eqb Bool.eqb].
  unfold entries. rewrite map_map. apply map_ext. now intros [c' s'].
Qed.

Lemma nth_all_predictions (c : string) (s : float32) (row : list float32) (j : nat) :
  nth_error (all_predictions_of (success_dict c s row)) j =
  match nth_error CATEGORIES j, nth_error row j with
  | Some cj, Some sj => Some (entry_fields cj sj)
  | _, _ => None
  end.
Proof.
  rewrite all_predictions_success, nth_error_map, nth_error_combine.
  destruct (nth_error CATEGORIES j), (nth_error row j); reflexivity.
Qed.

Lemma length_all_predictions (c : string) (s : float32) (row : list float32) :
  List.length (all_predictions_of (success_dict c s row)) = Nat.min 5 (List.length row).
Proof. now rewrite all_predictions_success, length_map, length_combine. Qed.

Lemma succeeded_failure (msg : string) : ~ succeeded (failure_dict msg).
Proof. unfold succeeded. cbn. discriminate. Qed.

(** A successful run, taken apart. *)
Lemma classify_success_inv load_img self p t d :
  classify load_img self p = (t, Return d) -> succeeded d ->
  exists row i c s,
    predictions_row load_img self p = Some row /\
    Np.argmax row = Return i /\
    nth_error row i = Some s /\
    nth_error CATEGORIES i = Some c /\
    (List.length row <= 5)%nat /\
    d = success_dict c s row /\
    t = [EvLoadImg p; EvPredict].
Proof.
  rewrite classify_eq. unfold predictions_row.
  destruct (load_img p (224%nat, 224%nat)) as [img|[m|m]].
  2,3: intros H; inversion H; subst; intros S; now apply succeeded_failure in S.
  destruct (model self (tensor_of img)) as [[|row rest]|[m|m]].
  1,3,4: intros H; inversion H; subst; intros S; now apply succeeded_failure in S.
  intros H; inversion H; subst; clear H. unfold row_result.
  destruct (Np.argmax row) as [i|e] eqn:Ea; [|intros S; now apply succeeded_failure in S].
  destruct (nth_error row i) as [s|] eqn:Es; [|intros S; now apply succeeded_failure in S].
  destruct (nth_error CATEGORIES i) as [c|] eqn:Ec; [|intros S; now apply succeeded_failure in S].
  destruct (List.length row <=? 5)%nat eqn:El; [|intros S; now apply succeeded_failure in S].
  intros _. exists row, i, c, s. apply Nat.leb_le in El. repeat split; auto.
Qed.

Lemma In_all_predictions (c : string) (s : float32) (row : list float32) (e : dict) :
  In e (all_predictions_of (success_dict c s row)) ->
  exists j cj sj, nth_error (all_predictions_of (success_dict c s row)) j = Some e /\
    nth_error CATEGORIES j = Some cj /\ nth_error row j = Some sj /\
    e = entry_fields cj sj.
Proof.
  intros H. apply In_nth_error in H. destruct H as [j Hj].
  pose proof Hj as Hj'. rewrite nth_all_predictions in Hj'.
  destruct (nth_error CATEGORIES j) as [cj|] eqn:Ec; [|discriminate].
  destruct (nth_error row j) as [sj|] eqn:Es; [|discriminate].
  inversion Hj'; subst. exists j, cj, sj. auto.
Qed.

Lemma category_of_entry (c : string) (s : float32) :
  category_of (entry_fields c s) = Some c.
Proof. reflexivity. Qed.

Lemma confidence_of_entry (c : string) (s : float32) :
  confidence_of (entry_fields c s) = Some (to_float s).
Proof. reflexivity. Qed.

(* ===================================================================== *)
(** * The winning category *)
(* ===================================================================== *)

(** C1: on a successful classification the [category] field is
    [CATEGORIES[argmax(predictions[0])]], [all_predictions] has an entry
    for that category, and no entry of [all_predictions] has a confidence
    strictly greater than that entry's. *)
Theorem classify_category_is_argmax load_img self p t d :
  classify load_img self p = (t, Return d) -> succeeded d ->
  exists row i c w,
    predictions_row load_img self p = Some row /\
    Np.argmax row = Return i /\
    nth_error CATEGORIES i = Some c /\
    category_of d = Some c /\
    (exists e, nth_error (all_predictions_of d) i = Some e /\ category_of e = Some c) /\
    (forall e, In e (all_predictions_of d) -> category_of e = Some c ->
       confidence_of e = Some w) /\
    (forall e x, In e (all_predictions_of d) -> confidence_of e = Some x ->
       ltb w x = false).
Proof.
  intros Hrun Hok.
  destruct (classify_success_inv _ _ _ _ _ Hrun Hok)
    as (row & i & c & s & Hrow & Ha & Hs & Hc & Hlen & -> & ->).
  exists row, i, c, (to_float s). repeat split; auto.
  - exists (entry_fields c s). split; [|reflexivity].
    now rewrite nth_all_predictions, Hc, Hs.
  - intros e He Hcat.
    destruct (In_all_predictions _ _ _ _ He) as (j & cj & sj & _ & Hcj & Hsj & ->).
    rewrite category_of_entry in Hcat. inversion Hcat; subst cj.
    assert (j = i) by (eapply CATEGORIES_inj; eauto). subst j.
    rewrite confidence_of_entry. congruence.
  - intros e x He Hx.
    destruct (In_all_predictions _ _ _ _ He) as (j & cj & sj & _ & Hcj & Hsj & ->).
    rewrite confidence_of_entry in Hx. inversion Hx; subst x.
    rewrite to_float_ltb.
    destruct (argmax_spec _ _ Ha) as (w & Hw & Hmax & _).
    assert (w = s) by congruence. subst w. eauto.
Qed.

Lemma classify_category_is_argmax_witness :
  exists t d,
    classify Sample.flat_image Sample.classifier "cat.jpg" = (t, Return d) /\
    succeeded d /\
    exists row i c w,
      predictions_row Sample.flat_image Sample.classifier "cat.jpg" = Some row /\
      Np.argmax row = Return i /\
      nth_error CATEGORIES i = Some c /\
      category_of d = Some c /\
      (exists e, nth_error (all_predictions_of d) i = Some e /\ category_of e = Some c) /\
      (forall e, In e (all_predictions_of d) -> category_of e = Some c ->
         confidence_of e = Some w) /\
      (forall e x, In e (all_predictions_of d) -> confidence_of e = Some x ->
         ltb w x = false).
Proof.
  eexists. eexists. split; [reflexivity|]. split; [reflexivity|].
  apply (classify_category_is_argmax Sample.flat_image Sample.classifier "cat.jpg"
           _ _ eq_refl eq_refl).
Defined.

(* ===================================================================== *)
(** * The number of entries *)
(* ===================================================================== *)

Lemma argmax_Return_nonempty (row : list float32) (i : nat) :
  Np.argmax row = Return i -> (1 <= List.length row)%nat.
Proof. destruct row; [discriminate|]. cbn. lia. Qed.

(** C2, as the code has it: on a successful classification
    [all_predictions] has one entry per score of [predictions[0]], and that
    row has between one and five scores. *)
Theorem all_predictions_length load_img self p t d :
  classify load_img self p = (t, Return d) -> succeeded d ->
  exists row,
    predictions_row load_img self p = Some row /\
    List.length (all_predictions_of d) = List.length row /\
    (1 <= List.length row <= List.length CATEGORIES)%nat.
Proof.
  intros Hrun Hok.
  destruct (classify_success_inv _ _ _ _ _ Hrun Hok)
    as (row & i & c & s & Hrow & Ha & Hs & Hc & Hlen & -> & ->).
  exists row. split; [assumption|]. split.
  - rewrite length_all_predictions. lia.
  - apply argmax_Return_nonempty in Ha. cbn [List.length CATEGORIES]. lia.
Qed.

Lemma all_predictions_length_witness :
  exists t d,
    classify Sample.flat_image Sample.classifier "cat.jpg" = (t, Return d) /\
    succeeded d /\
    exists row,
      predictions_row Sample.flat_image Sample.classifier "cat.jpg" = Some row /\
      List.length (all_predictions_of d) = List.length row /\
      (1 <= List.length row <= List.length CATEGORIES)%nat.
Proof.
  eexists. eexists. split; [reflexivity|]. split; [reflexivity|].
  apply (all_predictions_length Sample.flat_image Sample.classifier "cat.jpg"
           _ _ eq_refl eq_refl).
Defined.

(** C2 as stated fails: a model with three output units classifies
    successfully and reports three entries, not five. *)
Lemma three_outputs_three_entries :
  exists t d,
    classify Sample.flat_image {| model := Sample.three_way |} "cat.jpg" = (t, Return d) /\
    succeeded d /\
    List.length (all_predictions_of d) = 3%nat /\
    List.length (all_predictions_of d) <> List.length CATEGORIES.
Proof.
  eexists. eexists. split; [reflexivity|]. split; [reflexivity|].
  split; [reflexivity|]. cbn. discriminate.
Qed.

(* ===================================================================== *)
(** * [main] *)
(* ===================================================================== *)

Lemma exists_eq (os_path_exists : string -> bool) (p : string) :
  exists_ os_path_exists p = ([EvExists p], Return (os_path_exists p)).
Proof. reflexivity. Qed.

Lemma init_eq (load_model : string -> outcome keras_model) (p : string) :
  init load_model p =
  match load_model p with
  | Return m => ([EvLoadModel p], Return {| model := m |})
  | Raise e => ([EvLoadModel p], Raise e)
  end.
Proof. unfold init. rewrite bind_emit. now destruct (load_model p). Qed.

(** Runs [main] on an explicit [argv] as far as the facts in the context
    about the file system and [load_model] decide it. *)
Ltac run_main :=
  unfold main; cbn [List.length Nat.eqb negb list_getitem nth_error];
  rewrite ?bind_lift_Return;
  repeat (rewrite ?exists_eq, ?init_eq, ?bind_Return;
          match goal with
          | H : ?f ?p = _ |- context [?f ?p] => rewrite H
          end; cbn [negb]);
  rewrite ?bind_Return.

Section MainFacts.

Variable os_path_exists : string -> bool.
Variable load_model : string -> outcome keras_model.
Variable load_img : string -> nat * nat -> outcome image.
Variable json_dumps : pyval -> string.

Lemma main_usage (argv : list string) :
  List.length argv <> 3%nat ->
  main os_path_exists load_model load_img json_dumps argv = ([EvPrint usage], Return tt).
Proof.
  intros H. unfold main.
  destruct (Nat.eqb_spec (List.length argv) 3); [contradiction|reflexivity].
Qed.

Lemma main_load_failure (prog model_path image_path : string) (e : exn) :
  os_path_exists model_path = true ->
  os_path_exists image_path = true ->
  load_model model_path = Raise e ->
  main os_path_exists load_model load_img json_dumps [prog; model_path; image_path] =
  ([EvExists model_path; EvExists image_path; EvLoadModel model_path], Raise e).
Proof. intros Hm Hi Hl. run_main. reflexivity. Qed.

Lemma main_classifies (prog model_path image_path : string) (m : keras_model) :
  os_path_exists model_path = true ->
  os_path_exists image_path = true ->
  load_model model_path = Return m ->
  main os_path_exists load_model load_img json_dumps [prog; model_path; image_path] =
  prepend [EvExists model_path; EvExists image_path; EvLoadModel model_path]
    (bind (classify load_img {| model := m |} image_path)
          (fun result => print (json_dumps (PDict result)))).
Proof.
  intros Hm Hi Hl. run_main.
  destruct (bind (classify load_img {| model := m |} image_path) _) as [t r].
  reflexivity.
Qed.

End MainFacts.

(** C3: with two arguments and a model path that does not exist, [main]
    checks that path, prints the JSON text of
    [{"success": false, "error": "Model not found: <model_path>"}] and
    returns; nothing else happens (no model is loaded, the image path is
    not looked at). *)
Theorem main_model_not_found os_path_exists load_model load_img json_dumps
    (prog model_path image_path : string) :
  os_path_exists model_path = false ->
  main os_path_exists load_model load_img json_dumps [prog; model_path; image_path] =
  ([EvExists model_path;
    EvPrint (json_dumps
      (PDict [("success"%string, PBool false);
              ("error"%string, PStr ("Model not found: " ++ model_path)%string)]))],
   Return tt).
Proof. intros Hm. run_main. reflexivity. Qed.

Lemma main_model_not_found_witness :
  Sample.fs "missing.h5" = false /\
  main Sample.fs (Sample.loads Sample.five_way) Sample.flat_image Sample.dumps
    ["waste_classifier.py"; "missing.h5"; "cat.jpg"]%string =
  ([EvExists "missing.h5";
    EvPrint (Sample.dumps
      (PDict [("success"%string, PBool false);
              ("error"%string, PStr "Model not found: missing.h5")]))],
   Return tt).
Proof.
  split; [reflexivity|].
  apply (main_model_not_found Sample.fs (Sample.loads Sample.five_way) Sample.flat_image
           Sample.dumps "waste_classifier.py" "missing.h5" "cat.jpg" eq_refl).
Defined.

(** C4: with two arguments, a model path that exists and an image path that
    does not, [main] checks the two paths, prints the JSON text of
    [{"success": false, "error": "Image not found: <image_path>"}] and
    returns; no model is loaded and no inference runs. *)
Theorem main_image_not_found os_path_exists load_model load_img json_dumps
    (prog model_path image_path : string) :
  os_path_exists model_path = true ->
  os_path_exists image_path = false ->
  main os_path_exists load_model load_img json_dumps [prog; model_path; image_path] =
  ([EvExists model_path; EvExists image_path;
    EvPrint (json_dumps
      (PDict [("success"%string, PBool false);
              ("error"%string, PStr ("Image not found: " ++ image_path)%string)]))],
   Return tt).
Proof. intros Hm Hi. run_main. reflexivity. Qed.

Lemma main_image_not_found_witness :
  Sample.fs "model.h5" = true /\ Sample.fs "dog.jpg" = false /\
  main Sample.fs (Sample.loads Sample.five_way) Sample.flat_image Sample.dumps
    ["waste_classifier.py"; "model.h5"; "dog.jpg"]%string =
  ([EvExists "model.h5"; EvExists "dog.jpg";
    EvPrint (Sample.dumps
      (PDict [("success"%string, PBool false);
              ("error"%string, PStr "Image not found: dog.jpg")]))],
   Return tt).
Proof.
  split; [reflexivity|]. split; [reflexivity|].
  apply (main_image_not_found Sample.fs (Sample.loads Sample.five_way) Sample.flat_image
           Sample.dumps "waste_classifier.py" "model.h5" "dog.jpg" eq_refl eq_refl).
Defined.

Lemma row_result_cases (row : list float32) :
  (exists c s, row_result row = success_dict c s row) \/
  (exists msg, row_result row = failure_dict msg).
Proof.
  unfold row_result.
  destruct (Np.argmax row) as [i|e]; [|right; eauto].
  destruct (nth_error row i) as [s|]; [|right; eauto].
  destruct (nth_error CATEGORIES i) as [c|]; [|right; eauto].
  destruct (List.length row <=? 5)%nat; [left|right]; eauto.
Qed.

Lemma well_formed_failure (msg : string) : well_formed_record (failure_dict msg).
Proof. right. split; [reflexivity|]. cbn. discriminate. Qed.

Lemma well_formed_success c s row : well_formed_record (success_dict c s row).
Proof. left. repeat split; cbn; discriminate. Qed.

(** X2: the script's own [print] in a run of [main].  Either [main]
    returns, and then its last action was its only call of [print], with
    the usage text or the JSON text of a well-formed record; or [main] ends
    with an exception, and then it never called [print].  (What a library
    writes to standard output while it is called is not an event of the
    script.) *)
Lemma main_outcomes os_path_exists load_model load_img json_dumps (argv : list string) :
  let r := main os_path_exists load_model load_img json_dumps argv in
  (snd r = Return tt /\
   exists t line, fst r = t ++ [EvPrint line] /\ prints_nothing t /\
     (line = usage \/
      exists d, line = json_dumps (PDict d) /\ well_formed_record d)) \/
  (exists e, snd r = Raise e /\ prints_nothing (fst r)).
Proof.
  cbv zeta.
  destruct (Nat.eq_dec (List.length argv) 3) as [Hlen|Hlen].
  2:{ rewrite main_usage by assumption. left. split; [reflexivity|].
      exists [], usage. split; [reflexivity|]. split; [intros line []|now left]. }
  destruct argv as [|prog [|m [|i [|? ?]]]]; try discriminate.
  destruct (os_path_exists m) eqn:Hm.
  2:{ assert (E : main os_path_exists load_model load_img json_dumps [prog; m; i] =
                   ([EvExists m] ++
                    [EvPrint (json_dumps (PDict (failure_dict ("Model not found: " ++ m))))],
                    Return tt)) by (run_main; reflexivity).
      rewrite E. left. split; [reflexivity|].
      eexists. eexists. split; [reflexivity|]. split.
      - intros line [H|[]]. discriminate H.
      - right. eexists. split; [reflexivity|]. apply well_formed_failure. }
  destruct (os_path_exists i) eqn:Hi.
  2:{ assert (E : main os_path_exists load_model load_img json_dumps [prog; m; i] =
                   ([EvExists m; EvExists i] ++
                    [EvPrint (json_dumps (PDict (failure_dict ("Image not found: " ++ i))))],
                    Return tt)) by (run_main; reflexivity).
      rewrite E. left. split; [reflexivity|].
      eexists. eexists. split; [reflexivity|]. split.
      - intros line [H|[H|[]]]; discriminate H.
      - right. eexists. split; [reflexivity|]. apply well_formed_failure. }
  destruct (load_model m) as [km|e] eqn:Hl.
  2:{ rewrite (main_load_failure _ _ _ _ _ _ _ e Hm Hi Hl). right.
      exists e. split; [reflexivity|].
      intros line [H|[H|[H|[]]]]; discriminate H. }
  rewrite (main_classifies _ _ _ _ _ _ _ km Hm Hi Hl), classify_eq.
  assert (Hret : forall t d, well_formed_record d -> prints_nothing t ->
    let r := prepend [EvExists m; EvExists i; EvLoadModel m]
               (bind (t, Return d) (fun result => print (json_dumps (PDict result)))) in
    snd r = Return tt /\
    exists t' line, fst r = t' ++ [EvPrint line] /\ prints_nothing t' /\
      (line = usage \/ exists d, line = json_dumps (PDict d) /\ well_formed_record d)).
  { intros t d Hd Ht r. subst r. rewrite bind_Return. unfold print, emit, prepend.
    cbn [fst snd]. split; [reflexivity|].
    exists ([EvExists m; EvExists i; EvLoadModel m] ++ t), (json_dumps (PDict d)).
    split; [now rewrite app_assoc|]. split; [|right; eauto].
    intros line Hin. apply in_app_or in Hin. destruct Hin as [Hin|Hin].
    - destruct Hin as [H|[H|[H|[]]]]; discriminate H.
    - exact (Ht line Hin). }
  assert (Hraise : forall t, prints_nothing t ->
    prints_nothing ([EvExists m; EvExists i; EvLoadModel m] ++ t)).
  { intros t Ht line Hin. apply in_app_or in Hin. destruct Hin as [Hin|Hin].
    - destruct Hin as [H|[H|[H|[]]]]; discriminate H.
    - exact (Ht line Hin). }
  assert (H1 : prints_nothing [EvLoadImg i])
    by (intros line [H|[]]; discriminate H).
  assert (H2 : prints_nothing [EvLoadImg i; EvPredict])
    by (intros line [H|[H|[]]]; discriminate H).
  destruct (load_img i (224%nat, 224%nat)) as [img|[msg|msg]].
  - cbn [model]. destruct (km (tensor_of img)) as [[|row rest]|[msg|msg]].
    + left. apply Hret; [apply well_formed_failure|exact H2].
    + left. apply Hret; [|exact H2].
      destruct (row_result_cases row) as [(c & s & ->)|(msg & ->)];
        [apply well_formed_success|apply well_formed_failure].
    + left. apply Hret; [apply well_formed_failure|exact H2].
    + right. eexists. split; [reflexivity|].
      exact (Hraise _ H2).
  - left. apply Hret; [apply well_formed_failure|exact H1].
  - right. eexists. split; [reflexivity|].
    exact (Hraise _ H1).
Qed.

(** C8, at a model file that exists and does not load: [load_model] raises
    inside [WasteClassifier.__init__], outside every [try], so [main] ends
    with that exception and has printed nothing. *)
Theorem main_propagates_load_failure :
  main Sample.fs Sample.corrupt Sample.flat_image Sample.dumps Sample.argv =
  ([EvExists "model.h5"; EvExists "cat.jpg"; EvLoadModel "model.h5"],
   Raise (Exc "Unable to open file (file signature not found)")) /\
  stdout (fst (main Sample.fs Sample.corrupt Sample.flat_image Sample.dumps Sample.argv)) = [].
Proof.
  assert (H := main_load_failure Sample.fs Sample.corrupt Sample.flat_image Sample.dumps
                 "waste_classifier.py" "model.h5" "cat.jpg" _ eq_refl eq_refl eq_refl).
  unfold Sample.argv. rewrite H. split; reflexivity.
Qed.

(* ===================================================================== *)
(** * Exceptions inside [classify] *)
(* ===================================================================== *)

(** C5, as the code has it: an instance of [Exception] raised by the
    preprocessing or by the forward pass is caught and reported as
    [{"success": false, "error": str(e)}]; [classify] never raises an
    instance of [Exception]; what it does raise is an exception outside
    [Exception] that the preprocessing or the forward pass raised, and such
    an exception always comes through; every record it returns is a success
    record or a failure record. *)
Theorem classify_catches_Exception load_img self p :
  (forall msg, load_img p (224%nat, 224%nat) = Raise (Exc msg) ->
     classify load_img self p = ([EvLoadImg p], Return (failure_dict msg))) /\
  (forall img msg, load_img p (224%nat, 224%nat) = Return img ->
     model self (tensor_of img) = Raise (Exc msg) ->
     classify load_img self p = ([EvLoadImg p; EvPredict], Return (failure_dict msg))) /\
  (forall t e, classify load_img self p = (t, Raise e) ->
     exists msg, e = BaseExc msg /\
       (load_img p (224%nat, 224%nat) = Raise (BaseExc msg) \/
        exists img, load_img p (224%nat, 224%nat) = Return img /\
          model self (tensor_of img) = Raise (BaseExc msg))) /\
  (forall msg, load_img p (224%nat, 224%nat) = Raise (BaseExc msg) ->
     classify load_img self p = ([EvLoadImg p], Raise (BaseExc msg))) /\
  (forall img msg, load_img p (224%nat, 224%nat) = Return img ->
     model self (tensor_of img) = Raise (BaseExc msg) ->
     classify load_img self p = ([EvLoadImg p; EvPredict], Raise (BaseExc msg))) /\
  (forall t d, classify load_img self p = (t, Return d) ->
     succeeded d \/ exists msg, d = failure_dict msg).
Proof.
  rewrite classify_eq. repeat split.
  - intros msg H. now rewrite H.
  - intros img msg H1 H2. now rewrite H1, H2.
  - intros t e.
    destruct (load_img p (224%nat, 224%nat)) as [img|[m|m]]; try discriminate.
    + destruct (model self (tensor_of img)) as [[|row rest]|[m|m]] eqn:Hm;
        try discriminate.
      intros H. inversion H; subst. exists m. split; [reflexivity|].
      right. exists img. auto.
    + intros H. inversion H; subst. exists m. auto.
  - intros msg H. now rewrite H.
  - intros img msg H1 H2. now rewrite H1, H2.
  - intros t d.
    destruct (load_img p (224%nat, 224%nat)) as [img|[m|m]]; try discriminate.
    2:{ intros H. inversion H; subst. right. eauto. }
    destruct (model self (tensor_of img)) as [[|row rest]|[m|m]]; try discriminate.
    1,3: intros H; inversion H; subst; right; eauto.
    intros H. inversion H; subst. unfold row_result.
    destruct (Np.argmax row); [|right; eauto].
    destruct (nth_error row a); [|right; eauto].
    destruct (nth_error CATEGORIES a); [|right; eauto].
    destruct (List.length row <=? 5)%nat; [left; reflexivity|right; eauto].
Qed.

Lemma classify_catches_Exception_witness :
  model {| model := Sample.failing |} (tensor_of (repeat (repeat (x00, x80, xff) 224) 224)) =
    Raise (Exc "Graph execution error") /\
  classify Sample.flat_image {| model := Sample.failing |} "cat.jpg" =
    ([EvLoadImg "cat.jpg"; EvPredict], Return (failure_dict "Graph execution error")).
Proof.
  split; [reflexivity|].
  apply (proj1 (proj2 (classify_catches_Exception Sample.flat_image
                         {| model := Sample.failing |} "cat.jpg"))
           (repeat (repeat (x00, x80, xff) 224) 224) "Graph execution error"%string
           eq_refl eq_refl).
Defined.

(** C5 as stated fails: [KeyboardInterrupt] is raised while the forward
    pass runs and [classify] lets it through instead of returning a record. *)
Lemma classify_propagates_KeyboardInterrupt :
  model {| model := Sample.interrupted |}
        (tensor_of (repeat (repeat (x00, x80, xff) 224) 224)) =
    Raise (BaseExc EmptyString) /\
  classify Sample.flat_image {| model := Sample.interrupted |} "cat.jpg" =
    ([EvLoadImg "cat.jpg"; EvPredict], Raise (BaseExc EmptyString)) /\
  forall t d,
    classify Sample.flat_image {| model := Sample.interrupted |} "cat.jpg" <> (t, Return d).
Proof.
  split; [reflexivity|]. split; [reflexivity|]. intros t d H. discriminate H.
Qed.

(* ===================================================================== *)
(** * Preprocessing *)
(* ===================================================================== *)


Lemma f32_255 : f32_val (f32_of_Z 255) = S754_finite false 16711680 (-16).
Proof. reflexivity. Qed.




(* ===================================================================== *)
(** * Confidences *)
(* ===================================================================== *)

Lemma to_float_zero : to_float f32_zero = zero64.
Proof. reflexivity. Qed.

Lemma to_float_one : to_float f32_one = one64.
Proof. reflexivity. Qed.

Lemma to_float_in_unit (s : float32) : in_unit32 s -> in_unit64 (to_float s).
Proof.
  intros [H0 H1]. split.
  - rewrite <- to_float_zero, to_float_leb. exact H0.
  - rewrite <- to_float_one, to_float_leb. exact H1.
Qed.

Lemma Forall_nth_error {A} (P : A -> Prop) (l : list A) (j : nat) (x : A) :
  Forall P l -> nth_error l j = Some x -> P x.
Proof.
  intros H Hx. rewrite Forall_forall in H. apply H. eapply nth_error_In; eauto.
Qed.

Lemma to_float_in_unit_iff (s : float32) : in_unit64 (to_float s) <-> in_unit32 s.
Proof.
  unfold in_unit64, in_unit32.
  rewrite <- to_float_zero at 1. rewrite <- to_float_one at 1.
  now rewrite !to_float_leb.
Qed.

(** C7, as the code has it: on a successful classification every
    confidence is [float()] of the model's score at that position, neither
    clamped nor normalised, so it lies in [0,1] exactly when that score
    does; the same holds of the top-level confidence and the winning score.
    When the scores of [predictions[0]] are all in [0,1], so are all the
    confidences. *)
Theorem confidences_in_unit_interval_iff_scores load_img self p t d :
  classify load_img self p = (t, Return d) -> succeeded d ->
  exists row,
    predictions_row load_img self p = Some row /\
    (forall j e x s,
       nth_error (all_predictions_of d) j = Some e -> confidence_of e = Some x ->
       nth_error row j = Some s ->
       x = to_float s /\ (in_unit64 x <-> in_unit32 s)) /\
    (exists i s, Np.argmax row = Return i /\ nth_error row i = Some s /\
       confidence_of d = Some (to_float s) /\
       (in_unit64 (to_float s) <-> in_unit32 s)) /\
    (Forall in_unit32 row ->
       (forall e, In e (all_predictions_of d) ->
          exists x, confidence_of e = Some x /\ in_unit64 x) /\
       (exists x, confidence_of d = Some x /\ in_unit64 x)).
Proof.
  intros Hrun Hok.
  destruct (classify_success_inv _ _ _ _ _ Hrun Hok)
    as (row & i & c & s & Hrow & Ha & Hs & Hc & Hlen & -> & ->).
  exists row. split; [assumption|]. split; [|split].
  - intros j e x sj He Hx Hsj. rewrite nth_all_predictions, Hsj in He.
    destruct (nth_error CATEGORIES j); [|discriminate].
    inversion He; subst e. rewrite confidence_of_entry in Hx. inversion Hx; subst x.
    split; [reflexivity|apply to_float_in_unit_iff].
  - exists i, s. split; [assumption|]. split; [assumption|].
    split; [reflexivity|apply to_float_in_unit_iff].
  - intros Hunit. split.
    + intros e He.
      destruct (In_all_predictions _ _ _ _ He) as (j & cj & sj & _ & Hcj & Hsj & ->).
      exists (to_float sj). split; [reflexivity|].
      apply to_float_in_unit. eapply Forall_nth_error; eauto.
    + exists (to_float s). split; [reflexivity|].
      apply to_float_in_unit. eapply Forall_nth_error; eauto.
Qed.

Lemma confidences_in_unit_interval_iff_scores_witness :
  exists t d,
    classify Sample.flat_image Sample.classifier "cat.jpg" = (t, Return d) /\
    succeeded d /\
    exists row,
      predictions_row Sample.flat_image Sample.classifier "cat.jpg" = Some row /\
      (forall j e x s,
         nth_error (all_predictions_of d) j = Some e -> confidence_of e = Some x ->
         nth_error row j = Some s ->
         x = to_float s /\ (in_unit64 x <-> in_unit32 s)) /\
      (exists i s, Np.argmax row = Return i /\ nth_error row i = Some s /\
         confidence_of d = Some (to_float s) /\
         (in_unit64 (to_float s) <-> in_unit32 s)) /\
      (Forall in_unit32 row ->
         (forall e, In e (all_predictions_of d) ->
            exists x, confidence_of e = Some x /\ in_unit64 x) /\
         (exists x, confidence_of d = Some x /\ in_unit64 x)).
Proof.
  eexists. eexists. split; [reflexivity|]. split; [reflexivity|].
  apply (confidences_in_unit_interval_iff_scores Sample.flat_image Sample.classifier
           "cat.jpg" _ _ eq_refl eq_refl).
Defined.

(** C7 as stated fails: a model whose scores are logits loads and classifies
    successfully, the top-level confidence is 2.0 and the entry for Glass
    has confidence -1.0, both outside [0,1]. *)
Lemma logits_confidences_outside_unit_interval :
  exists t d,
    classify Sample.flat_image {| model := Sample.logits |} "cat.jpg" = (t, Return d) /\
    succeeded d /\
    (exists w, confidence_of d = Some w /\
       w = S754_finite false 4503599627370496 (-51) /\ leb w one64 = false /\
       ~ in_unit64 w) /\
    (exists e x, In e (all_predictions_of d) /\
       category_of e = Some "Glass"%string /\ confidence_of e = Some x /\
       x = S754_finite true 4503599627370496 (-52) /\ leb zero64 x = false /\
       ~ in_unit64 x).
Proof.
  eexists. eexists. split; [reflexivity|]. split; [reflexivity|]. split.
  - eexists. split; [reflexivity|]. split; [reflexivity|]. split; [reflexivity|].
    intros [_ H]. discriminate H.
  - eexists. eexists. split; [right; left; reflexivity|].
    split; [reflexivity|]. split; [reflexivity|]. split; [reflexivity|].
    split; [reflexivity|]. intros [H _]. discriminate H.
Qed.

(** C9: on a successful classification the top-level [confidence] is the
    confidence of the entry of [all_predictions] whose category is the
    top-level [category]; there is such an entry. *)
Theorem confidence_matches_entry load_img self p t d :
  classify load_img self p = (t, Return d) -> succeeded d ->
  exists c x,
    category_of d = Some c /\
    confidence_of d = Some x /\
    (exists e, In e (all_predictions_of d) /\ category_of e = Some c) /\
    (forall e, In e (all_predictions_of d) -> category_of e = Some c ->
       confidence_of e = Some x).
Proof.
  intros Hrun Hok.
  destruct (classify_success_inv _ _ _ _ _ Hrun Hok)
    as (row & i & c & s & Hrow & Ha & Hs & Hc & Hlen & -> & ->).
  exists c, (to_float s). repeat split.
  - exists (entry_fields c s). split; [|reflexivity].
    apply (nth_error_In _ i). now rewrite nth_all_predictions, Hc, Hs.
  - intros e He Hcat.
    destruct (In_all_predictions _ _ _ _ He) as (j & cj & sj & _ & Hcj & Hsj & ->).
    rewrite category_of_entry in Hcat. inversion Hcat; subst cj.
    assert (j = i) by (eapply CATEGORIES_inj; eauto). subst j.
    rewrite confidence_of_entry. congruence.
Qed.

Lemma confidence_matches_entry_witness :
  exists t d,
    classify Sample.flat_image Sample.classifier "cat.jpg" = (t, Return d) /\
    succeeded d /\
    exists c x,
      category_of d = Some c /\
      confidence_of d = Some x /\
      (exists e, In e (all_predictions_of d) /\ category_of e = Some c) /\
      (forall e, In e (all_predictions_of d) -> category_of e = Some c ->
         confidence_of e = Some x).
Proof.
  eexists. eexists. split; [reflexivity|]. split; [reflexivity|].
  apply (confidence_matches_entry Sample.flat_image Sample.classifier "cat.jpg" _ _
           eq_refl eq_refl).
Defined.

(* ===================================================================== *)
(** * Determinism and ties *)
(* ===================================================================== *)

Lemma classify_of_row load_img self p row :
  predictions_row load_img self p = Some row ->
  classify load_img self p = ([EvLoadImg p; EvPredict], Return (row_result row)).
Proof.
  unfold predictions_row. rewrite classify_eq.
  destruct (load_img p (224%nat, 224%nat)) as [img|]; [|discriminate].
  destruct (model self (tensor_of img)) as [[|r rest]|]; try discriminate.
  intros H. now inversion H.
Qed.

(** C10: the record [classify] returns is a function of [predictions[0]]
    alone (two runs that reach the same row return the same record, whatever
    the image, the path and the rest of the batch), and on a success the
    reported category is at the first index of [CATEGORIES] whose entry
    carries the winning confidence: no entry is strictly greater, and an
    entry equal to the winner's does not come before it. *)
Theorem result_deterministic_first_maximum :
  (forall load_img1 load_img2 self1 self2 p1 p2 row,
     predictions_row load_img1 self1 p1 = Some row ->
     predictions_row load_img2 self2 p2 = Some row ->
     snd (classify load_img1 self1 p1) = snd (classify load_img2 self2 p2)) /\
  (forall load_img self p t d,
     classify load_img self p = (t, Return d) -> succeeded d ->
     exists row i c w,
       predictions_row load_img self p = Some row /\
       Np.argmax row = Return i /\
       nth_error CATEGORIES i = Some c /\
       category_of d = Some c /\
       confidence_of d = Some w /\
       (forall j e x, nth_error (all_predictions_of d) j = Some e ->
          confidence_of e = Some x -> ltb w x = false) /\
       (forall j e x, nth_error (all_predictions_of d) j = Some e ->
          confidence_of e = Some x -> eqb x w = true -> (i <= j)%nat)).
Proof.
  split.
  - intros l1 l2 s1 s2 p1 p2 row H1 H2.
    now rewrite (classify_of_row _ _ _ _ H1), (classify_of_row _ _ _ _ H2).
  - intros load_img self p t d Hrun Hok.
    destruct (classify_success_inv _ _ _ _ _ Hrun Hok)
      as (row & i & c & s & Hrow & Ha & Hs & Hc & Hlen & -> & ->).
    destruct (argmax_spec _ _ Ha) as (w & Hw & Hmax & Hfirst).
    assert (w = s) by congruence. subst w.
    exists row, i, c, (to_float s). repeat split; auto.
    + intros j e x He Hx. rewrite nth_all_predictions in He.
      destruct (nth_error CATEGORIES j) as [cj|]; [|discriminate].
      destruct (nth_error row j) as [sj|] eqn:Hsj; [|discriminate].
      inversion He; subst e. rewrite confidence_of_entry in Hx.
      inversion Hx; subst x. rewrite to_float_ltb. eauto.
    + intros j e x He Hx Htie. rewrite nth_all_predictions in He.
      destruct (nth_error CATEGORIES j) as [cj|]; [|discriminate].
      destruct (nth_error row j) as [sj|] eqn:Hsj; [|discriminate].
      inversion He; subst e. rewrite confidence_of_entry in Hx.
      inversion Hx; subst x. rewrite to_float_eqb in Htie.
      destruct (Nat.le_gt_cases i j) as [|Hlt]; [assumption|exfalso].
      destruct (Hfirst j sj Hlt Hsj) as [_ [Hnan|Hless]].
      * unfold f32_eqb in Htie. rewrite eqb_nan_r in Htie by exact Hnan. discriminate.
      * apply ltb_not_eqb in Hless. unfold f32_eqb in Htie. congruence.
Qed.

Lemma result_deterministic_first_maximum_witness :
  exists t d,
    classify Sample.flat_image {| model := Sample.tied |} "cat.jpg" = (t, Return d) /\
    succeeded d /\
    category_of d = Some "Glass"%string /\
    exists row i c w,
      predictions_row Sample.flat_image {| model := Sample.tied |} "cat.jpg" = Some row /\
      Np.argmax row = Return i /\
      nth_error CATEGORIES i = Some c /\
      category_of d = Some c /\
      confidence_of d = Some w /\
      (forall j e x, nth_error (all_predictions_of d) j = Some e ->
         confidence_of e = Some x -> ltb w x = false) /\
      (forall j e x, nth_error (all_predictions_of d) j = Some e ->
         confidence_of e = Some x -> eqb x w = true -> (i <= j)%nat).
Proof.
  eexists. eexists. split; [reflexivity|]. split; [reflexivity|]. split; [reflexivity|].
  apply (proj2 result_deterministic_first_maximum Sample.flat_image
           {| model := Sample.tied |} "cat.jpg"%string _ _ eq_refl eq_refl).
Defined.

(* ===================================================================== *)
(** * Runs on the sample worlds *)
(* ===================================================================== *)

Example argmax_tie :
  Np.argmax [f32_scaled 1 (-2); f32_scaled 1 (-1); f32_scaled 1 (-1)] = Return 1%nat.
Proof. reflexivity. Qed.

Example argmax_first_nan :
  Np.argmax [f32_scaled 1 (-1); f32_nan; f32_scaled 3 (-2); f32_nan] = Return 1%nat.
Proof. reflexivity. Qed.

Example to_float_half : to_float (f32_scaled 1 (-1)) = S754_finite false 4503599627370496 (-53).
Proof. reflexivity. Qed.

Example to_float_subnormal :
  f32_val (f32_scaled 1 (-149)) = S754_finite false 1 (-149) /\
  to_float (f32_scaled 1 (-149)) = S754_finite false 4503599627370496 (-201).
Proof. split; reflexivity. Qed.

Example normalize_ff : f32_val (normalize xff) = f32_val f32_one.
Proof. reflexivity. Qed.

Example main_sample_run :
  stdout (fst (main Sample.fs (Sample.loads Sample.five_way) Sample.flat_image
                 Sample.dumps Sample.argv)) = ["{success: true, ...}"%string].
Proof. reflexivity. Qed.

Example getitem_empty_batch :
  Np.getitem ([] : list (list float32)) 0 =
  Raise (Exc "index 0 is out of bounds for axis 0 with size 0").
Proof. reflexivity. Qed.

Example main_no_arguments :
  main Sample.fs (Sample.loads Sample.five_way) Sample.flat_image Sample.dumps
    ["waste_classifier.py"%string] = ([EvPrint usage], Return tt).
Proof. reflexivity. Qed.

(* ===================================================================== *)
(** * Further properties: [main] *)
(* ===================================================================== *)

(** X1: with any number of arguments other than two, [main] prints the
    usage text and returns; it looks at no file and calls no library. *)
Theorem main_wrong_arity os_path_exists load_model load_img json_dumps
    (argv : list string) :
  List.length argv <> 3%nat ->
  main os_path_exists load_model load_img json_dumps argv = ([EvPrint usage], Return tt).
Proof.
  intros H. unfold main.
  destruct (Nat.eqb_spec (List.length argv) 3) as [E|E]; [now destruct H|reflexivity].
Qed.

Lemma main_wrong_arity_witness :
  List.length ["waste_classifier.py"; "model.h5"]%string <> 3%nat /\
  main Sample.fs (Sample.loads Sample.five_way) Sample.flat_image Sample.dumps
    ["waste_classifier.py"; "model.h5"]%string = ([EvPrint usage], Return tt).
Proof.
  assert (H : List.length ["waste_classifier.py"; "model.h5"]%string <> 3%nat)
    by (cbn; discriminate).
  split; [exact H|].
  apply (main_wrong_arity Sample.fs (Sample.loads Sample.five_way) Sample.flat_image
           Sample.dumps _ H).
Defined.

(** X3: when both files exist and the model loads, [main] is the two
    checks, the load, the run of [classify] on the image path with the
    loaded model, and then one print of the JSON text of the record
    [classify] returned; if [classify] raises, [main] raises the same
    exception and prints nothing. *)
Theorem main_reports_classification os_path_exists load_model load_img json_dumps
    (prog model_path image_path : string) (m : keras_model) :
  os_path_exists model_path = true ->
  os_path_exists image_path = true ->
  load_model model_path = Return m ->
  main os_path_exists load_model load_img json_dumps [prog; model_path; image_path] =
  match classify load_img {| model := m |} image_path with
  | (t, Return d) =>
      ([EvExists model_path; EvExists image_path; EvLoadModel model_path] ++ t ++
       [EvPrint (json_dumps (PDict d))], Return tt)
  | (t, Raise e) =>
      ([EvExists model_path; EvExists image_path; EvLoadModel model_path] ++ t, Raise e)
  end.
Proof.
  intros Hm Hi Hl. rewrite (main_classifies _ _ _ _ _ _ _ m Hm Hi Hl).
  destruct (classify load_img {| model := m |} image_path) as [t [d|e]].
  - rewrite bind_Return. reflexivity.
  - reflexivity.
Qed.

Lemma main_reports_classification_witness :
  Sample.fs "model.h5" = true /\ Sample.fs "cat.jpg" = true /\
  Sample.loads Sample.five_way "model.h5" = Return Sample.five_way /\
  main Sample.fs (Sample.loads Sample.five_way) Sample.flat_image Sample.dumps Sample.argv =
  match classify Sample.flat_image {| model := Sample.five_way |} "cat.jpg" with
  | (t, Return d) =>
      ([EvExists "model.h5"; EvExists "cat.jpg"; EvLoadModel "model.h5"] ++ t ++
       [EvPrint (Sample.dumps (PDict d))], Return tt)
  | (t, Raise e) =>
      ([EvExists "model.h5"; EvExists "cat.jpg"; EvLoadModel "model.h5"] ++ t, Raise e)
  end.
Proof.
  split; [reflexivity|]. split; [reflexivity|]. split; [reflexivity|].
  apply (main_reports_classification Sample.fs (Sample.loads Sample.five_way)
           Sample.flat_image Sample.dumps "waste_classifier.py" "model.h5" "cat.jpg"
           Sample.five_way eq_refl eq_refl eq_refl).
Defined.

(** X5: the events of [classify] are the call of [load_img] alone when
    that call raises, and the call of [load_img] followed by one forward
    pass when it returns: inference never runs on an image that did not load,
    and [classify] itself prints nothing and looks at no file. *)
Theorem classify_events load_img self p :
  match load_img p (224%nat, 224%nat) with
  | Raise _ => fst (classify load_img self p) = [EvLoadImg p]
  | Return _ => fst (classify load_img self p) = [EvLoadImg p; EvPredict]
  end.
Proof.
  rewrite classify_eq.
  destruct (load_img p (224%nat, 224%nat)) as [img|[m|m]]; try reflexivity.
  destruct (model self (tensor_of img)) as [[|row rest]|[m|m]]; reflexivity.
Qed.

(** X4: [main] calls a library only behind its checks.  A [load_model] in
    the run means there were two arguments and both paths exist; a
    [load_img] means, besides, that the model loaded; a forward pass means,
    besides, that the image loaded. *)
Theorem main_guards_library_calls os_path_exists load_model load_img json_dumps
    (argv : list string) (ev : event) :
  In ev (fst (main os_path_exists load_model load_img json_dumps argv)) ->
  match ev with
  | EvLoadModel p =>
      exists prog i, argv = [prog; p; i] /\
        os_path_exists p = true /\ os_path_exists i = true
  | EvLoadImg p =>
      exists prog m km, argv = [prog; m; p] /\
        os_path_exists m = true /\ os_path_exists p = true /\
        load_model m = Return km
  | EvPredict =>
      exists prog m i km img, argv = [prog; m; i] /\
        os_path_exists m = true /\ os_path_exists i = true /\
        load_model m = Return km /\ load_img i (224%nat, 224%nat) = Return img
  | _ => True
  end.
Proof.
  destruct (Nat.eq_dec (List.length argv) 3) as [Hlen|Hlen].
  2:{ rewrite main_usage by assumption. intros [<-|[]]. exact I. }
  destruct argv as [|prog [|m [|i [|? ?]]]]; try discriminate.
  destruct (os_path_exists m) eqn:Hm.
  2:{ assert (E : exists line,
        main os_path_exists load_model load_img json_dumps [prog; m; i] =
        ([EvExists m; EvPrint line], Return tt)) by (eexists; run_main; reflexivity).
      destruct E as [line ->]. intros [<-|[<-|[]]]; exact I. }
  destruct (os_path_exists i) eqn:Hi.
  2:{ assert (E : exists line,
        main os_path_exists load_model load_img json_dumps [prog; m; i] =
        ([EvExists m; EvExists i; EvPrint line], Return tt))
        by (eexists; run_main; reflexivity).
      destruct E as [line ->]. intros [<-|[<-|[<-|[]]]]; exact I. }
  destruct (load_model m) as [km|e] eqn:Hl.
  2:{ rewrite (main_load_failure _ _ _ _ _ _ _ e Hm Hi Hl).
      intros [<-|[<-|[<-|[]]]]; try exact I. exists prog, i. auto. }
  rewrite (main_classifies _ _ _ _ _ _ _ km Hm Hi Hl).
  pose proof (classify_events load_img {| model := km |} i) as Hev.
  destruct (classify load_img {| model := km |} i) as [t r].
  cbn [fst] in Hev.
  assert (Hin : In ev (fst (prepend [EvExists m; EvExists i; EvLoadModel m]
                   (bind (t, r) (fun result => print (json_dumps (PDict result)))))) ->
                In ev ([EvExists m; EvExists i; EvLoadModel m] ++ t) \/
                exists line, ev = EvPrint line).
  { destruct r as [d|e]; cbn [bind print emit prepend fst].
    - rewrite app_assoc. intros H. apply in_app_or in H. destruct H as [H|[<-|[]]]; eauto.
    - auto. }
  intros H. apply Hin in H. destruct H as [H|[line ->]]; [|exact I].
  destruct (load_img i (224%nat, 224%nat)) as [img|e] eqn:Himg; subst t.
  - destruct H as [<-|[<-|[<-|[<-|[<-|[]]]]]]; try exact I.
    + exists prog, i. auto.
    + exists prog, m, km. auto.
    + exists prog, m, i, km, img. auto.
  - destruct H as [<-|[<-|[<-|[<-|[]]]]]; try exact I.
    + exists prog, i. auto.
    + exists prog, m, km. auto.
Qed.

Lemma main_guards_library_calls_witness :
  In EvPredict (fst (main Sample.fs (Sample.loads Sample.five_way) Sample.flat_image
                       Sample.dumps Sample.argv)) /\
  exists prog m i km img, Sample.argv = [prog; m; i] /\
    Sample.fs m = true /\ Sample.fs i = true /\
    Sample.loads Sample.five_way m = Return km /\
    Sample.flat_image i (224%nat, 224%nat) = Return img.
Proof.
  assert (H : In EvPredict (fst (main Sample.fs (Sample.loads Sample.five_way)
                                   Sample.flat_image Sample.dumps Sample.argv))).
  { right. right. right. right. left. reflexivity. }
  split; [exact H|].
  apply (main_guards_library_calls Sample.fs (Sample.loads Sample.five_way)
           Sample.flat_image Sample.dumps Sample.argv EvPredict H).
Defined.

(* ===================================================================== *)
(** * Further properties: [classify] *)
(* ===================================================================== *)

Lemma argmax_Return_lt (row : list float32) (i : nat) :
  Np.argmax row = Return i -> (i < List.length row)%nat.
Proof. intros H. apply is_argmax_lt. now apply argmax_spec. Qed.

Lemma row_result_success (row : list float32) :
  (1 <= List.length row <= 5)%nat ->
  exists i c s, Np.argmax row = Return i /\ nth_error row i = Some s /\
    nth_error CATEGORIES i = Some c /\ row_result row = success_dict c s row.
Proof.
  intros [H1 H5]. unfold row_result.
  destruct (Np.argmax row) as [i|e] eqn:Ha.
  2:{ destruct row; [cbn in H1; lia|discriminate]. }
  pose proof (argmax_Return_lt _ _ Ha) as Hi.
  destruct (nth_error row i) as [s|] eqn:Hs.
  2:{ apply nth_error_None in Hs. lia. }
  destruct (nth_error CATEGORIES i) as [c|] eqn:Hc.
  2:{ apply nth_error_None in Hc. cbn in Hc. lia. }
  replace (List.length row <=? 5)%nat with true by (symmetry; apply Nat.leb_le; lia).
  exists i, c, s. auto.
Qed.

Lemma NoDup_map_Some {A} (l : list A) : NoDup l -> NoDup (map Some l).
Proof.
  induction 1 as [|x l Hx HN IH]; cbn [map]; constructor; [|assumption].
  intros Hin. apply in_map_iff in Hin. destruct Hin as (y & Hy & Hin).
  inversion Hy; subst y. contradiction.
Qed.

(** X6: [classify] returns a success record exactly when the image loads,
    the forward pass returns a batch that is not empty, and the first row of
    the batch has at least one score and at most five. *)
Theorem classify_success_iff load_img self p :
  (exists t d, classify load_img self p = (t, Return d) /\ succeeded d) <->
  (exists row, predictions_row load_img self p = Some row /\
     (1 <= List.length row <= 5)%nat).
Proof.
  split.
  - intros (t & d & Hrun & Hok).
    destruct (classify_success_inv _ _ _ _ _ Hrun Hok)
      as (row & i & c & s & Hrow & Ha & Hs & Hc & Hlen & _).
    exists row. split; [assumption|]. split; [|assumption].
    apply argmax_Return_lt in Ha. lia.
  - intros (row & Hrow & Hlen).
    destruct (row_result_success row Hlen) as (i & c & s & _ & _ & _ & Hres).
    exists [EvLoadImg p; EvPredict], (row_result row). split.
    + now apply classify_of_row.
    + rewrite Hres. reflexivity.
Qed.

(** X7: a model with more output units than [CATEGORIES] has names never
    gives a result: [classify] returns the failure record of the
    [IndexError], [{"success": false, "error": "list index out of range"}]. *)
Theorem classify_too_many_outputs load_img self p row :
  predictions_row load_img self p = Some row ->
  (5 < List.length row)%nat ->
  classify load_img self p =
  ([EvLoadImg p; EvPredict], Return (failure_dict "list index out of range")).
Proof.
  intros Hrow Hlen. rewrite (classify_of_row _ _ _ _ Hrow). do 2 f_equal.
  unfold row_result.
  destruct (Np.argmax row) as [i|e] eqn:Ha.
  2:{ destruct row; [cbn in Hlen; lia|discriminate]. }
  pose proof (argmax_Return_lt _ _ Ha) as Hi.
  destruct (nth_error row i) as [s|] eqn:Hs.
  2:{ apply nth_error_None in Hs. lia. }
  destruct (nth_error CATEGORIES i); [|reflexivity].
  replace (List.length row <=? 5)%nat with false by (symmetry; apply Nat.leb_gt; lia).
  reflexivity.
Qed.

Lemma classify_too_many_outputs_witness :
  exists row,
    predictions_row Sample.flat_image {| model := Sample.six_way |} "cat.jpg" = Some row /\
    (5 < List.length row)%nat /\
    classify Sample.flat_image {| model := Sample.six_way |} "cat.jpg" =
    ([EvLoadImg "cat.jpg"; EvPredict], Return (failure_dict "list index out of range")).
Proof.
  eexists. split; [reflexivity|].
  assert (H : (5 < 6)%nat) by lia.
  split; [exact H|].
  apply (classify_too_many_outputs Sample.flat_image {| model := Sample.six_way |}
           "cat.jpg" _ eq_refl H).
Defined.

(** X8: a forward pass that returns an empty row gives the failure record of
    numpy's [ValueError],
    [{"success": false, "error": "attempt to get argmax of an empty sequence"}]. *)
Theorem classify_empty_row load_img self p :
  predictions_row load_img self p = Some [] ->
  classify load_img self p =
  ([EvLoadImg p; EvPredict],
   Return (failure_dict "attempt to get argmax of an empty sequence")).
Proof. intros Hrow. now rewrite (classify_of_row _ _ _ _ Hrow). Qed.

Lemma classify_empty_row_witness :
  predictions_row Sample.flat_image {| model := Sample.no_output |} "cat.jpg" = Some [] /\
  classify Sample.flat_image {| model := Sample.no_output |} "cat.jpg" =
  ([EvLoadImg "cat.jpg"; EvPredict],
   Return (failure_dict "attempt to get argmax of an empty sequence")).
Proof.
  split; [reflexivity|].
  apply (classify_empty_row Sample.flat_image {| model := Sample.no_output |}
           "cat.jpg" eq_refl).
Defined.

(** X9: on a success, [all_predictions] follows [CATEGORIES]: its entry at
    position [j] carries the name [CATEGORIES[j]] and the confidence
    [float(predictions[0][j])]; so every reported name is one of
    [CATEGORIES], and no name is reported twice. *)
Theorem all_predictions_in_category_order load_img self p t d :
  classify load_img self p = (t, Return d) -> succeeded d ->
  exists row,
    predictions_row load_img self p = Some row /\
    (forall j e, nth_error (all_predictions_of d) j = Some e ->
       exists c s, nth_error CATEGORIES j = Some c /\ nth_error row j = Some s /\
         category_of e = Some c /\ confidence_of e = Some (to_float s)) /\
    (forall j s, nth_error row j = Some s ->
       exists e, nth_error (all_predictions_of d) j = Some e) /\
    (forall c, category_of d = Some c -> In c CATEGORIES) /\
    NoDup (map category_of (all_predictions_of d)).
Proof.
  intros Hrun Hok.
  destruct (classify_success_inv _ _ _ _ _ Hrun Hok)
    as (row & i & c & s & Hrow & Ha & Hs & Hc & Hlen & -> & ->).
  exists row. split; [assumption|]. repeat split.
  - intros j e He. rewrite nth_all_predictions in He.
    destruct (nth_error CATEGORIES j) as [cj|]; [|discriminate].
    destruct (nth_error row j) as [sj|]; [|discriminate].
    inversion He; subst e. exists cj, sj. auto.
  - intros j sj Hsj. rewrite nth_all_predictions, Hsj.
    destruct (nth_error CATEGORIES j) as [cj|] eqn:Hcj; [eauto|].
    apply nth_error_None in Hcj. cbn in Hcj.
    assert (j < List.length row)%nat by (apply nth_error_Some; congruence). lia.
  - intros c' Hc'. cbn in Hc'. inversion Hc'; subst c'.
    eapply nth_error_In; eauto.
  - rewrite all_predictions_success, map_map.
    assert (E : map (fun x : string * float32 => category_of (let '(c0, s0) := x in entry_fields c0 s0))
                  (combine CATEGORIES row) =
                map Some (firstn (List.length row) CATEGORIES)).
    { clear. generalize CATEGORIES as cats. induction row as [|s row IH]; intros [|c cats];
        cbn [combine map List.length firstn]; try reflexivity.
      now rewrite IH. }
    rewrite E. apply NoDup_map_Some.
    pose proof NoDup_CATEGORIES as HN.
    rewrite <- (firstn_skipn (List.length row) CATEGORIES) in HN.
    now apply NoDup_app_remove_r in HN.
Qed.

Lemma all_predictions_in_category_order_witness :
  exists t d,
    classify Sample.flat_image Sample.classifier "cat.jpg" = (t, Return d) /\
    succeeded d /\
    exists row,
      predictions_row Sample.flat_image Sample.classifier "cat.jpg" = Some row /\
      (forall j e, nth_error (all_predictions_of d) j = Some e ->
         exists c s, nth_error CATEGORIES j = Some c /\ nth_error row j = Some s /\
           category_of e = Some c /\ confidence_of e = Some (to_float s)) /\
      (forall j s, nth_error row j = Some s ->
         exists e, nth_error (all_predictions_of d) j = Some e) /\
      (forall c, category_of d = Some c -> In c CATEGORIES) /\
      NoDup (map category_of (all_predictions_of d)).
Proof.
  eexists. eexists. split; [reflexivity|]. split; [reflexivity|].
  apply (all_predictions_in_category_order Sample.flat_image Sample.classifier "cat.jpg"
           _ _ eq_refl eq_refl).
Defined.

(* ===================================================================== *)
(** * Further properties: scores that are not numbers *)
(* ===================================================================== *)

Lemma argmax_scan_first_nan (l : list float32) :
  forall mp best i,
    f32_isnan mp = false ->
    (exists y, In y l /\ f32_isnan y = true) ->
    exists k x, Np.argmax_scan mp best i l = (i + k)%nat /\
      nth_error l k = Some x /\ f32_isnan x = true.
Proof.
  induction l as [|x l IH]; intros mp best i Hmp (y & Hy & Hnan); [destruct Hy|].
  cbn [Np.argmax_scan].
  destruct (f32_isnan x) eqn:Hx.
  - rewrite (leb_nan_l (f32_val x) (f32_val mp) Hx : f32_leb x mp = false). cbn [negb].
    exists 0%nat, x. rewrite Nat.add_0_r. auto.
  - assert (Hrest : exists y, In y l /\ f32_isnan y = true).
    { destruct Hy as [<-|Hy]; [congruence|eauto]. }
    destruct (f32_leb x mp); cbn [negb].
    + destruct (IH mp best (S i) Hmp Hrest) as (k & z & Hk & Hz & Hzn).
      exists (S k), z. split; [lia|auto].
    + destruct (IH x i (S i) Hx Hrest) as (k & z & Hk & Hz & Hzn).
      exists (S k), z. split; [lia|auto].
Qed.

Lemma argmax_nan (row : list float32) (i : nat) :
  Np.argmax row = Return i ->
  (exists y, In y row /\ f32_isnan y = true) ->
  exists x, nth_error row i = Some x /\ f32_isnan x = true.
Proof.
  destruct row as [|x l]; [discriminate|]. cbn [Np.argmax]. intros H Hnan.
  inversion H as [Hi]; clear H.
  destruct (f32_isnan x) eqn:Hx; [exists x; auto|].
  assert (Hrest : exists y, In y l /\ f32_isnan y = true).
  { destruct Hnan as (y & [<-|Hy] & Hn); [congruence|eauto]. }
  destruct (argmax_scan_first_nan l x 0%nat 1%nat Hx Hrest) as (k & z & Hk & Hz & Hzn).
  rewrite Hk. exists z. auto.
Qed.

(** X10: a score that is not a number wins.  On a success whose row holds a
    NaN, the reported category is the one at the index of the first NaN of
    the row, and the top-level confidence is a NaN. *)
Theorem nan_score_wins load_img self p t d row :
  classify load_img self p = (t, Return d) -> succeeded d ->
  predictions_row load_img self p = Some row ->
  (exists y, In y row /\ f32_isnan y = true) ->
  exists i c s w,
    nth_error row i = Some s /\ f32_isnan s = true /\
    (forall j y, (j < i)%nat -> nth_error row j = Some y -> f32_isnan y = false) /\
    nth_error CATEGORIES i = Some c /\ category_of d = Some c /\
    confidence_of d = Some w /\ isnan w = true.
Proof.
  intros Hrun Hok Hrow Hnan.
  destruct (classify_success_inv _ _ _ _ _ Hrun Hok)
    as (row' & i & c & s & Hrow' & Ha & Hs & Hc & Hlen & -> & ->).
  assert (row' = row) by congruence. subst row'.
  destruct (argmax_nan _ _ Ha Hnan) as (x & Hx & Hxn).
  assert (x = s) by congruence. subst x.
  destruct (argmax_spec _ _ Ha) as (w & Hw & _ & Hfirst).
  exists i, c, s, (to_float s). repeat split; auto.
  - intros j y Hj Hy. exact (proj1 (Hfirst j y Hj Hy)).
  - now rewrite to_float_isnan.
Qed.

Lemma nan_score_wins_witness :
  exists t d row,
    classify Sample.flat_image {| model := Sample.with_nan |} "cat.jpg" = (t, Return d) /\
    succeeded d /\
    predictions_row Sample.flat_image {| model := Sample.with_nan |} "cat.jpg" = Some row /\
    (exists y, In y row /\ f32_isnan y = true) /\
    category_of d = Some "Metal"%string /\
    exists i c s w,
      nth_error row i = Some s /\ f32_isnan s = true /\
      (forall j y, (j < i)%nat -> nth_error row j = Some y -> f32_isnan y = false) /\
      nth_error CATEGORIES i = Some c /\ category_of d = Some c /\
      confidence_of d = Some w /\ isnan w = true.
Proof.
  eexists. eexists. eexists. split; [reflexivity|]. split; [reflexivity|].
  split; [reflexivity|].
  assert (H : exists y,
    In y [f32_scaled 1 (-2); f32_scaled 3 (-2); f32_nan; f32_scaled 1 (-1)] /\
    f32_isnan y = true).
  { exists f32_nan. split; [right; right; left; reflexivity|reflexivity]. }
  split; [exact H|]. split; [reflexivity|].
  apply (nan_score_wins Sample.flat_image {| model := Sample.with_nan |} "cat.jpg"
           _ _ _ eq_refl eq_refl eq_refl H).
Defined.

Lemma not_ltb_leb a b :
  isnan a = false -> isnan b = false -> ltb a b = false -> leb b a = true.
Proof.
  intros Ha Hb H. apply leb_key. repeat split; auto.
  destruct (key_lt_total (key a) (key b)) as [L|[E|G]]; auto.
  assert (ltb a b = true) by (apply ltb_key; auto). congruence.
Qed.

(** X11: when no score of the row is a NaN, the top-level confidence is an
    upper bound: every confidence of [all_predictions] is [<=] it. *)
Theorem top_confidence_is_upper_bound load_img self p t d row :
  classify load_img self p = (t, Return d) -> succeeded d ->
  predictions_row load_img self p = Some row ->
  (forall y, In y row -> f32_isnan y = false) ->
  exists w, confidence_of d = Some w /\
    forall e x, In e (all_predictions_of d) -> confidence_of e = Some x ->
      leb x w = true.
Proof.
  intros Hrun Hok Hrow Hnum.
  destruct (classify_success_inv _ _ _ _ _ Hrun Hok)
    as (row' & i & c & s & Hrow' & Ha & Hs & Hc & Hlen & -> & ->).
  assert (row' = row) by congruence. subst row'.
  exists (to_float s). split; [reflexivity|].
  intros e x He Hx.
  destruct (In_all_predictions _ _ _ _ He) as (j & cj & sj & _ & Hcj & Hsj & ->).
  rewrite confidence_of_entry in Hx. inversion Hx; subst x.
  rewrite to_float_leb.
  destruct (argmax_spec _ _ Ha) as (w & Hw & Hmax & _).
  assert (w = s) by congruence. subst w.
  apply not_ltb_leb.
  - apply Hnum. eapply nth_error_In; eauto.
  - apply Hnum. eapply nth_error_In; eauto.
  - exact (Hmax j sj Hsj).
Qed.

Lemma five_way_numbers (y : float32) :
  In y [f32_scaled 1 (-3); f32_scaled 1 (-1); f32_scaled 1 (-3);
        f32_scaled 1 (-3); f32_scaled 1 (-3)] -> f32_isnan y = false.
Proof. intros [<-|[<-|[<-|[<-|[<-|[]]]]]]; reflexivity. Defined.

Lemma top_confidence_is_upper_bound_witness :
  exists t d row,
    classify Sample.flat_image Sample.classifier "cat.jpg" = (t, Return d) /\
    succeeded d /\
    predictions_row Sample.flat_image Sample.classifier "cat.jpg" = Some row /\
    (forall y, In y row -> f32_isnan y = false) /\
    exists w, confidence_of d = Some w /\
      forall e x, In e (all_predictions_of d) -> confidence_of e = Some x ->
        leb x w = true.
Proof.
  eexists. eexists. eexists. split; [reflexivity|]. split; [reflexivity|].
  split; [reflexivity|]. split; [exact five_way_numbers|].
  apply (top_confidence_is_upper_bound Sample.flat_image Sample.classifier "cat.jpg"
           _ _ _ eq_refl eq_refl eq_refl five_way_numbers).
Defined.

(** X12: the confidences of two entries compare (IEEE: less, equal, greater
    or unordered) exactly as the model's two float32 scores do, so ranking
    the categories by reported confidence is ranking them by score. *)
Theorem confidences_keep_score_order load_img self p t d :
  classify load_img self p = (t, Return d) -> succeeded d ->
  exists row,
    predictions_row load_img self p = Some row /\
    forall j k ej ek xj xk sj sk,
      nth_error (all_predictions_of d) j = Some ej -> confidence_of ej = Some xj ->
      nth_error (all_predictions_of d) k = Some ek -> confidence_of ek = Some xk ->
      nth_error row j = Some sj -> nth_error row k = Some sk ->
      SFcompare xj xk = SFcompare (f32_val sj) (f32_val sk).
Proof.
  intros Hrun Hok.
  destruct (classify_success_inv _ _ _ _ _ Hrun Hok)
    as (row & i & c & s & Hrow & Ha & Hs & Hc & Hlen & -> & ->).
  exists row. split; [assumption|].
  intros j k ej ek xj xk sj sk Hej Hxj Hek Hxk Hsj Hsk.
  rewrite nth_all_predictions, Hsj in Hej. rewrite nth_all_predictions, Hsk in Hek.
  destruct (nth_error CATEGORIES j); [|discriminate].
  destruct (nth_error CATEGORIES k); [|discriminate].
  inversion Hej; subst ej. inversion Hek; subst ek.
  rewrite confidence_of_entry in Hxj, Hxk. inversion Hxj. inversion Hxk.
  apply to_float_compare.
Qed.

Lemma confidences_keep_score_order_witness :
  exists t d,
    classify Sample.flat_image Sample.classifier "cat.jpg" = (t, Return d) /\
    succeeded d /\
    exists row,
      predictions_row Sample.flat_image Sample.classifier "cat.jpg" = Some row /\
      forall j k ej ek xj xk sj sk,
        nth_error (all_predictions_of d) j = Some ej -> confidence_of ej = Some xj ->
        nth_error (all_predictions_of d) k = Some ek -> confidence_of ek = Some xk ->
        nth_error row j = Some sj -> nth_error row k = Some sk ->
        SFcompare xj xk = SFcompare (f32_val sj) (f32_val sk).
Proof.
  eexists. eexists. split; [reflexivity|]. split; [reflexivity|].
  apply (confidences_keep_score_order Sample.flat_image Sample.classifier "cat.jpg"
           _ _ eq_refl eq_refl).
Defined.

(* ===================================================================== *)
(** * Further properties: the normalisation *)
(* ===================================================================== *)

Lemma normalize_level (b : byte) :
  normalize b = normalized_level (N.to_nat (Byte.to_N b)).
Proof. destruct b; reflexivity. Qed.

Lemma normalized_level_step (n : nat) :
  (n < 255)%nat -> f32_ltb (normalized_level n) (normalized_level (S n)) = true.
Proof.
  assert (H : forallb (fun n => f32_ltb (normalized_level n) (normalized_level (S n)))
                (seq 0 255) = true) by (vm_compute; reflexivity).
  rewrite forallb_forall in H. intros Hn. apply H. apply in_seq. lia.
Qed.

Lemma normalized_level_increasing (n m : nat) :
  (n < m <= 255)%nat -> f32_ltb (normalized_level n) (normalized_level m) = true.
Proof.
  induction m as [|m IH]; [lia|]. intros H.
  destruct (Nat.eq_dec n m) as [->|Hne].
  - apply normalized_level_step. lia.
  - eapply ltb_trans; [apply IH; lia|apply normalized_level_step; lia].
Qed.

(** X13: the division by 255.0 keeps the order of the intensities and loses
    none: a channel strictly darker than another has a strictly smaller
    value in the array (so different intensities never collapse into one
    float32), black is exactly 0.0 and full intensity exactly 1.0. *)
Theorem normalize_strictly_increasing (b1 b2 : byte) :
  (Byte.to_N b1 < Byte.to_N b2)%N ->
  f32_ltb (normalize b1) (normalize b2) = true /\
  f32_val (normalize x00) = S754_zero false /\
  f32_val (normalize xff) = f32_val f32_one.
Proof.
  intros H. split; [|split; reflexivity].
  rewrite !normalize_level. apply normalized_level_increasing.
  pose proof (Byte.to_N_bounded b2). lia.
Qed.

Lemma normalize_strictly_increasing_witness :
  (Byte.to_N x7f < Byte.to_N x80)%N /\
  f32_ltb (normalize x7f) (normalize x80) = true /\
  f32_val (normalize x00) = S754_zero false /\
  f32_val (normalize xff) = f32_val f32_one.
Proof.
  assert (H : (Byte.to_N x7f < Byte.to_N x80)%N) by reflexivity.
  split; [exact H|]. apply (normalize_strictly_increasing x7f x80 H).
Defined.
